(** * Messenger server: real-time session and conversation routing

    A shallow embedding of the Socket.IO part of [server/index.js]
    (the [io.on('connection', ...)] block, lines 603-791) together with the
    SQLite tables of [server/database.js] that its handlers read and write.

    - user ids are SQLite row ids, hence integers: [Z];
    - message contents are JavaScript strings: lists of UTF-16 code units;
    - the set of connected sockets and the adapter's rooms are finite maps
      and finite sets ([gmap], [gset]);
    - [onlineUsers] is a JavaScript [Map]: its iteration order is the order of
      first insertion, so it is an association list;
    - a handler is a function from the server state to the new state and the
      list of events it emits, in emission order; the outcome of the store
      call it issues and the clocks are inputs of the step ([Env]);
    - the store callbacks of [join_conversation] and [send_message] run
      inside the step that issued the call.  The [authenticate] handler,
      which writes the presence map after its two [await]s, is modelled both
      ways: as one step ([Authenticate]) when nothing arrives in between,
      and as two steps ([AuthenticateSuspend], [AuthenticateResume]) between
      which other events, the disconnection of its socket included, may
      arrive. *)

From Stdlib Require Import ZArith String Ascii List DecimalString DecimalZ DecimalPos.
From Stdlib Require Import Permutation Sorted Lia.
From stdpp Require Import gmap strings list sorting.

Open Scope Z_scope.

(** ** JavaScript values used by the handlers *)

Module Js.

(** A string value, as its UTF-16 code units. *)
Definition JsString := list N.

(** ECMAScript [WhiteSpace] and [LineTerminator] code points, the ones
    [String.prototype.trim] strips. *)
Definition isWhiteSpace (c : N) : bool :=
  ((9 <=? c) && (c <=? 13) || (c =? 32) || (c =? 160) || (c =? 5760)
   || (8192 <=? c) && (c <=? 8202) || (c =? 8232) || (c =? 8233)
   || (c =? 8239) || (c =? 8287) || (c =? 12288) || (c =? 65279))%N.

Fixpoint trimStart (s : JsString) : JsString :=
  match s with
  | [] => []
  | c :: s' => if isWhiteSpace c then trimStart s' else s
  end.

Definition trimEnd (s : JsString) : JsString := rev (trimStart (rev s)).

Definition trim (s : JsString) : JsString := trimEnd (trimStart s).

(** [String.prototype.isWellFormed]: every surrogate code unit is half of a
    pair, a high one followed by a low one. *)
Definition is_high_surrogate (c : N) : bool := ((55296 <=? c) && (c <=? 56319))%N.

Definition is_low_surrogate (c : N) : bool := ((56320 <=? c) && (c <=? 57343))%N.

Fixpoint isWellFormed (s : JsString) : bool :=
  match s with
  | [] => true
  | c :: s' =>
      if is_high_surrogate c then
        match s' with
        | c' :: s'' => is_low_surrogate c' && isWellFormed s''
        | [] => false
        end
      else negb (is_low_surrogate c) && isWellFormed s'
  end.

(** [String.prototype.toWellFormed]: every surrogate that is not half of a
    pair is replaced by U+FFFD.  This is also what the text becomes on its
    way through UTF-8, the encoding the store holds it in. *)
Fixpoint toWellFormed (s : JsString) : JsString :=
  match s with
  | [] => []
  | c :: s' =>
      if is_high_surrogate c then
        match s' with
        | c' :: s'' =>
            if is_low_surrogate c' then c :: c' :: toWellFormed s''
            else 65533%N :: toWellFormed s'
        | [] => [65533%N]
        end
      else if is_low_surrogate c then 65533%N :: toWellFormed s'
      else c :: toWellFormed s'
  end.

(** [!s] for a string: only the empty string is falsy. *)
Definition falsy_string (s : JsString) : bool :=
  match s with [] => true | _ => false end.

(** [!n] for an optional number: [undefined] and [0] are falsy. *)
Definition falsy_num (n : option Z) : bool :=
  match n with
  | None => true
  | Some v => v =? 0
  end.

(** [Number.prototype.toString] on an integer: decimal digits, with a
    leading minus sign for a negative one.  This is the rendering of the
    integers a JavaScript number holds exactly, those of absolute value up
    to [2^53], which is where row ids live; beyond them a number is a rounded
    double, and from [10^21] on it prints in exponent form, which this
    definition does not follow. *)
Definition toString (n : Z) : string := NilEmpty.string_of_int (Z.to_int n).

(** [[a, b].sort(cmp)]: the second element moves in front of the first
    exactly when the comparator puts it strictly before. *)
Definition sort2 (cmp : Z -> Z -> Z) (a b : Z) : list Z :=
  if cmp b a <? 0 then [b; a] else [a; b].

(** [Array.prototype.join] on numbers. *)
Fixpoint join (sep : string) (l : list Z) : string :=
  match l with
  | [] => ""
  | [x] => toString x
  | x :: l' => toString x +:+ sep +:+ join sep l'
  end.

End Js.

Import Js.

(** ** The conversation room of a pair of users

    [[userId, friendId].sort((a, b) => a - b).join('-')], lines 666, 743
    and 760. *)

Definition roomId (a b : Z) : string := join "-" (sort2 (fun x y => x - y) a b).

(** ** The store: tables of [database.js] *)

Record User := mkUser {
  user_id : Z;
  user_name : string;
  user_phone : string
}.

Record FriendRow := mkFriend {
  friend_user1 : Z;
  friend_user2 : Z
}.

(** A row of [messages].  [timestamp] is the instant [CURRENT_TIMESTAMP]
    stands for: the column holds the text [YYYY-MM-DD HH:MM:SS], whose order
    as text is the order of the instants. *)
Record MessageRow := mkRow {
  msg_id : Z;
  sender_id : Z;
  receiver_id : Z;
  content : JsString;
  timestamp : Z
}.

(** Tables are kept in row order.  [msg_seq] is the largest row id the
    [messages] table ever used ([AUTOINCREMENT]). *)
Record Db := mkDb {
  users : list User;
  friends : list FriendRow;
  messages : list MessageRow;
  msg_seq : Z
}.

(** What a step takes from its environment: whether the store call it issues
    succeeds, the store's clock ([CURRENT_TIMESTAMP]) and the process clock
    ([new Date()]). *)
Record Env := mkEnv {
  db_ok : bool;
  db_now : Z;
  js_now : Z
}.

(** [SELECT id, name, phone, created_at FROM users WHERE id = ?] with
    [db.get]: the first matching row. *)
Definition findUserById (d : Db) (id : Z) : option User :=
  List.find (fun u => user_id u =? id) (users d).

(** A row of the history query: the message and [u.name as sender_name]. *)
Definition JoinedRow : Type := MessageRow * string.

(** [FROM messages m JOIN users u ON m.sender_id = u.id]. *)
Definition join_users (d : Db) : list JoinedRow :=
  flat_map
    (fun m => List.map (fun u => (m, user_name u))
                (List.filter (fun u => sender_id m =? user_id u) (users d)))
    (messages d).

(** [WHERE (m.sender_id = ? AND m.receiver_id = ?)
        OR (m.sender_id = ? AND m.receiver_id = ?)]
    with the parameters [[userId, friendId, friendId, userId]]. *)
Definition between (userId friendId : Z) (r : JoinedRow) : bool :=
  (sender_id r.1 =? userId) && (receiver_id r.1 =? friendId)
  || (sender_id r.1 =? friendId) && (receiver_id r.1 =? userId).

(** The joined rows that pass the [WHERE] clause, in scan order. *)
Definition pair_rows (d : Db) (userId friendId : Z) : list JoinedRow :=
  List.filter (between userId friendId) (join_users d).

(** [ORDER BY m.timestamp ASC].  Rows with equal timestamps come out in scan
    order, that is in the order of their row ids: a row is put in front of
    the first row of the sorted rest that is not earlier than it. *)
Fixpoint insert_by_timestamp (r : JoinedRow) (l : list JoinedRow) : list JoinedRow :=
  match l with
  | [] => [r]
  | x :: l' =>
      if timestamp r.1 <=? timestamp x.1 then r :: l
      else x :: insert_by_timestamp r l'
  end.

Definition order_by_timestamp (l : list JoinedRow) : list JoinedRow :=
  fold_right (fun r acc => insert_by_timestamp r acc) [] l.

(** The whole pair history, before [LIMIT]. *)
Definition pair_history (d : Db) (userId friendId : Z) : list JoinedRow :=
  order_by_timestamp (pair_rows d userId friendId).

(** The query of [join_conversation] (lines 672-680), [LIMIT 50]. *)
Definition history_query (d : Db) (userId friendId : Z) : list JoinedRow :=
  firstn 50 (pair_history d userId friendId).

(** [db.all(query, params, callback)]: the callback gets the rows, or an
    error. *)
Definition db_all_history (d : Db) (env : Env) (userId friendId : Z)
  : option (list JoinedRow) :=
  if db_ok env then Some (history_query d userId friendId) else None.

(** [INSERT INTO messages (sender_id, receiver_id, content) VALUES (?, ?, ?)]
    with [db.run]: on success the row is appended with a fresh id and the
    store's timestamp, and the callback sees the id as [this.lastID]; on
    failure the table is unchanged and the callback gets the error.

    The row keeps the code units it is given.  The store holds the text as
    UTF-8: what a query reads back is the text made well-formed, a
    surrogate without its pair coming back as U+FFFD (see
    [format_message]). *)
Definition db_run_insert_message (d : Db) (env : Env) (s r : Z) (c : JsString)
  : Db * option Z :=
  if db_ok env then
    let id := msg_seq d + 1 in
    ({| users := users d;
        friends := friends d;
        messages := messages d ++ [mkRow id s r c (db_now env)];
        msg_seq := id |},
     Some id)
  else (d, None).

(** ** Sockets, rooms and the presence map *)

Definition SocketId := string.

(** A bearer token: [jwt.verify] either yields the payload it was signed
    with, of which the handlers use [id], or fails. *)
Inductive Token :=
| Signed (id : Z)
| Forged.

Definition verifyToken (t : Token) : option Z :=
  match t with
  | Signed i => Some i
  | Forged => None
  end.

Definition Token_eq_dec (x y : Token) : {x = y} + {x ≠ y}.
Proof. decide equality; apply Z.eq_dec. Defined.

(** The properties the [authenticate] handler sets on a socket
    (lines 627-629); all [undefined] on a new connection. *)
Record Socket := mkSocket {
  sock_userId : option Z;
  sock_userName : option string;
  sock_userPhone : option string
}.

Definition new_socket : Socket := mkSocket None None None.

(** A value of the [onlineUsers] map (lines 631-637). *)
Record OnlineEntry := mkOnline {
  ou_userId : Z;
  ou_name : string;
  ou_phone : string;
  ou_socketId : SocketId;
  ou_connectedAt : Z
}.

(** JavaScript [Map] keyed by socket id: [set] on a present key replaces the
    value in place, on a new key appends; [values] iterates in that order. *)
Fixpoint map_set {V} (k : SocketId) (v : V) (m : list (SocketId * V))
  : list (SocketId * V) :=
  match m with
  | [] => [(k, v)]
  | kv :: m' =>
      if decide (kv.1 = k) then (k, v) :: m' else kv :: map_set k v m'
  end.

Definition map_delete {V} (k : SocketId) (m : list (SocketId * V))
  : list (SocketId * V) :=
  List.filter (fun kv => negb (bool_decide (kv.1 = k))) m.

Definition map_values {V} (m : list (SocketId * V)) : list V := List.map snd m.

(** The state of the process.  [authenticating] holds the [authenticate]
    handlers that are suspended at an [await] of lines 619-620, each with
    the id of its socket and the token it was called with. *)
Record Server := mkServer {
  sockets : gmap SocketId Socket;
  rooms : gmap string (gset SocketId);
  onlineUsers : list (SocketId * OnlineEntry);
  authenticating : list (SocketId * Token);
  db : Db
}.

Definition init (d : Db) : Server := mkServer ∅ ∅ [] [] d.

(** The sockets in a room; a room nobody joined is empty. *)
Definition room_members (st : Server) (room : string) : gset SocketId :=
  rooms st !!! room.

(** [socket.join(room)]. *)
Definition socket_join (st : Server) (sid : SocketId) (room : string) : Server :=
  {| sockets := sockets st;
     rooms := <[room := {[sid]} ∪ room_members st room]> (rooms st);
     onlineUsers := onlineUsers st;
     authenticating := authenticating st;
     db := db st |}.

(** ** Events *)

(** A message on the wire (lines 684-691 and 733-740). *)
Record Message := mkMessage {
  m_id : Z;
  m_senderId : Z;
  m_receiverId : Z;
  m_content : JsString;
  m_timestamp : Z;
  m_senderName : option string
}.

(** The texts of the [error] and [auth_error] events, by what they say. *)
Inductive ErrorMessage :=
| NotAuthenticated     (* "not authenticated", lines 662 and 707 *)
| EmptyContent         (* "the message must not be empty", line 714 *)
| Forbidden            (* "no permission to send the message", line 719 *)
| PersistenceFailure   (* "error while saving the message", line 729 *)
| SendFailure.         (* "error while sending the message", line 751 *)

Inductive AuthError :=
| TokenNotProvided     (* line 615 *)
| UserNotFound         (* line 623 *)
| TokenInvalid.        (* line 649 *)

Inductive OutEvent :=
| authenticate_out (t : Token)
| auth_success (u : User)
| auth_error (e : AuthError)
| message_history (l : list Message)
| new_message (m : Message)
| user_typing (userId : Z) (userName : option string) (isTyping : bool)
| users_online (l : list OnlineEntry)
| error (e : ErrorMessage)
| server_close.

(** One emission: the event and the sockets it is sent to. *)
Record Emit := mkEmit {
  targets : gset SocketId;
  event : OutEvent
}.

(** [shutdown()] (lines 846-859), which the process-level handlers of
    [uncaughtException] and [unhandledRejection] call (lines 865-873): it is
    recorded among the emissions of the step, sent to nobody.  It calls
    [server.close], and the process exits when the HTTP server has closed;
    the step itself leaves the sockets, the rooms and the presence map as
    they are.  What the HTTP server still lets in afterwards is not
    modelled: a run is not cut at a [shutdown]. *)
Definition shutdown : Emit := mkEmit ∅ server_close.

(** [socket.emit(ev)]. *)
Definition socket_emit (sid : SocketId) (ev : OutEvent) : Emit := mkEmit {[sid]} ev.

(** [io.emit(ev)]: every connected socket. *)
Definition io_emit (st : Server) (ev : OutEvent) : Emit := mkEmit (dom (sockets st)) ev.

(** [io.to(room).emit(ev)]: every socket in the room. *)
Definition io_to_emit (st : Server) (room : string) (ev : OutEvent) : Emit :=
  mkEmit (room_members st room) ev.

(** [socket.to(room).emit(ev)]: every socket in the room but this one. *)
Definition socket_to_emit (st : Server) (sid : SocketId) (room : string)
  (ev : OutEvent) : Emit :=
  mkEmit (room_members st room ∖ {[sid]}) ev.

(** Socket [sid] is sent event [ev] by one of the emissions [outs]. *)
Definition receives (outs : list Emit) (sid : SocketId) (ev : OutEvent) : Prop :=
  ∃ e, In e outs ∧ event e = ev ∧ sid ∈ targets e.

(** The events a client sends with a payload. *)
Inductive ClientEvent :=
| authenticate
| join_conversation
| send_message
| typing.

(** What arrives at the server.  The first six are a connection, the four
    client events with their payload, and the disconnection.
    [AuthenticateSuspend] and [AuthenticateResume] are the two halves of an
    [authenticate] handler between which other events arrive.  [NoPayload]
    is a client event sent without a payload: its listener is called with
    [undefined]. *)
Inductive InEvent :=
| Connection (handshake_token : option Token)
| Authenticate (token : option Token)
| JoinConversation (userId friendId : Z)
| SendMessage (senderId receiverId : Z) (content : JsString)
| Typing (receiverId : Z) (isTyping : bool)
| Disconnect
| AuthenticateSuspend (token : Token)
| AuthenticateResume (token : Token)
| NoPayload (name : ClientEvent).

(** ** The handlers of [io.on('connection', socket => ...)]

    Each takes the state, the id of the socket the handler belongs to and,
    where the code reads them, the socket's properties and the environment. *)

(** The body run on a new connection (lines 607-656): the socket enters the
    namespace; [socket.emit('authenticate', ...)] at line 655 sends an event
    to the client when the handshake carried a token. *)
Definition on_connection (st : Server) (sid : SocketId)
  (handshake_token : option Token) : Server * list Emit :=
  match sockets st !! sid with
  | Some _ => (st, [])
  | None =>
      ({| sockets := <[sid := new_socket]> (sockets st);
          rooms := rooms st;
          onlineUsers := onlineUsers st;
          authenticating := authenticating st;
          db := db st |},
       match handshake_token with
       | Some t => [socket_emit sid (authenticate_out t)]
       | None => []
       end)
  end.

(** [socket.on('authenticate', ...)], lines 611-651, when nothing arrives
    while the handler awaits.  A rejected [verifyToken] or [findUserById]
    lands in the [catch]. *)
Definition on_authenticate (st : Server) (sid : SocketId) (env : Env)
  (token : option Token) : Server * list Emit :=
  match token with
  | None => (st, [socket_emit sid (auth_error TokenNotProvided)])
  | Some t =>
      match verifyToken t with
      | None => (st, [socket_emit sid (auth_error TokenInvalid)])
      | Some decoded_id =>
          if negb (db_ok env) then (st, [socket_emit sid (auth_error TokenInvalid)])
          else
            match findUserById (db st) decoded_id with
            | None => (st, [socket_emit sid (auth_error UserNotFound)])
            | Some user =>
                let st' :=
                  {| sockets :=
                       <[sid := mkSocket (Some (user_id user))
                                         (Some (user_name user))
                                         (Some (user_phone user))]> (sockets st);
                     rooms := rooms st;
                     onlineUsers :=
                       map_set sid
                         (mkOnline (user_id user) (user_name user)
                                   (user_phone user) sid (js_now env))
                         (onlineUsers st);
                     authenticating := authenticating st;
                     db := db st |} in
                (st', [socket_emit sid (auth_success user);
                       io_emit st' (users_online (map_values (onlineUsers st')))])
            end
      end
  end.

(** The same handler when other events arrive while it awaits.

    Its first half (lines 612-619) runs when the event arrives, on a
    connected socket: a token is there, and the handler is suspended at
    [await verifyToken(token)].  It has read nothing of the state. *)
Definition on_authenticate_suspend (st : Server) (sid : SocketId) (t : Token)
  : Server * list Emit :=
  ({| sockets := sockets st;
      rooms := rooms st;
      onlineUsers := onlineUsers st;
      authenticating := authenticating st ++ [(sid, t)];
      db := db st |},
   []).

(** Taking a suspended handler out of the list: its first occurrence. *)
Fixpoint take_handler (sid : SocketId) (t : Token) (l : list (SocketId * Token))
  : option (list (SocketId * Token)) :=
  match l with
  | [] => None
  | h :: l' =>
      if bool_decide (h.1 = sid) && (if Token_eq_dec h.2 t then true else false)
      then Some l'
      else option_map (cons h) (take_handler sid t l')
  end.

(** [socket.emit(ev)] from a continuation: a socket that has disconnected
    in the meantime is sent nothing. *)
Definition socket_emit_if_connected (st : Server) (sid : SocketId)
  (ev : OutEvent) : list Emit :=
  match sockets st !! sid with
  | Some _ => [socket_emit sid ev]
  | None => []
  end.

(** Its second half (lines 619-650) runs when the awaited calls have
    answered, whether or not the socket is still connected: nothing in it
    looks at that.  On a socket that has disconnected, the three properties
    are set on an object the namespace no longer holds, and the entry that
    [onlineUsers.set] writes stays in the map, no [disconnect] being left to
    delete it. *)
Definition on_authenticate_resume (st : Server) (sid : SocketId) (env : Env)
  (t : Token) : Server * list Emit :=
  match take_handler sid t (authenticating st) with
  | None => (st, [])
  | Some suspended =>
      let st0 :=
        {| sockets := sockets st;
           rooms := rooms st;
           onlineUsers := onlineUsers st;
           authenticating := suspended;
           db := db st |} in
      match verifyToken t with
      | None => (st0, socket_emit_if_connected st sid (auth_error TokenInvalid))
      | Some decoded_id =>
          if negb (db_ok env) then
            (st0, socket_emit_if_connected st sid (auth_error TokenInvalid))
          else
            match findUserById (db st) decoded_id with
            | None =>
                (st0, socket_emit_if_connected st sid (auth_error UserNotFound))
            | Some user =>
                let st' :=
                  {| sockets :=
                       match sockets st !! sid with
                       | Some _ =>
                           <[sid := mkSocket (Some (user_id user))
                                             (Some (user_name user))
                                             (Some (user_phone user))]> (sockets st)
                       | None => sockets st
                       end;
                     rooms := rooms st;
                     onlineUsers :=
                       map_set sid
                         (mkOnline (user_id user) (user_name user)
                                   (user_phone user) sid (js_now env))
                         (onlineUsers st);
                     authenticating := suspended;
                     db := db st |} in
                (st', socket_emit_if_connected st sid (auth_success user)
                      ++ [io_emit st' (users_online (map_values (onlineUsers st')))])
            end
      end
  end.

(** The rows of the history query as sent (lines 684-691).  The content is
    the stored text as the query reads it back from the store. *)
Definition format_message (r : JoinedRow) : Message :=
  {| m_id := msg_id r.1;
     m_senderId := sender_id r.1;
     m_receiverId := receiver_id r.1;
     m_content := toWellFormed (content r.1);
     m_timestamp := timestamp r.1;
     m_senderName := Some r.2 |}.

(** [socket.on('join_conversation', ...)], lines 659-701, called with its
    payload [{ userId, friendId }]. *)
Definition on_join_conversation (st : Server) (sid : SocketId) (socket : Socket)
  (env : Env) (userId friendId : Z) : Server * list Emit :=
  if falsy_num (sock_userId socket) then
    (st, [socket_emit sid (error NotAuthenticated)])
  else
    let st' := socket_join st sid (roomId userId friendId) in
    match db_all_history (db st') env userId friendId with
    | Some rows =>
        (st', [socket_emit sid (message_history (List.map format_message rows))])
    | None => (st', [])
    end.

(** [socket.on('send_message', ...)], lines 704-753, called with its
    payload [{ senderId, receiverId, content }]. *)
Definition on_send_message (st : Server) (sid : SocketId) (socket : Socket)
  (env : Env) (senderId receiverId : Z) (content : JsString)
  : Server * list Emit :=
  if falsy_num (sock_userId socket) then
    (st, [socket_emit sid (error NotAuthenticated)])
  else if falsy_string content || falsy_string (trim content) then
    (st, [socket_emit sid (error EmptyContent)])
  else if negb (bool_decide (Some senderId = sock_userId socket)) then
    (st, [socket_emit sid (error Forbidden)])
  else
    match db_run_insert_message (db st) env senderId receiverId (trim content) with
    | (_, None) => (st, [socket_emit sid (error PersistenceFailure)])
    | (d', Some lastID) =>
        let st' :=
          {| sockets := sockets st;
             rooms := rooms st;
             onlineUsers := onlineUsers st;
             authenticating := authenticating st;
             db := d' |} in
        let message :=
          {| m_id := lastID;
             m_senderId := senderId;
             m_receiverId := receiverId;
             m_content := trim content;
             m_timestamp := js_now env;
             m_senderName := sock_userName socket |} in
        (st', [io_to_emit st' (roomId senderId receiverId) (new_message message)])
    end.

(** [socket.on('typing', ...)], lines 756-770, called with its payload
    [{ receiverId, isTyping }].  [if (!socket.userId) return] leaves on an
    [undefined] and on a zero user id. *)
Definition on_typing (st : Server) (sid : SocketId) (socket : Socket)
  (receiverId : Z) (isTyping : bool) : Server * list Emit :=
  match sock_userId socket with
  | Some userId =>
      if userId =? 0 then (st, [])
      else
        (st, [socket_to_emit st sid (roomId userId receiverId)
                (user_typing userId (sock_userName socket) isTyping)])
  | None => (st, [])
  end.

(** [socket.on('disconnect', ...)], lines 773-785.  When the handler runs the
    library has already taken the socket out of the namespace and of every
    room. *)
Definition on_disconnect (st : Server) (sid : SocketId) : Server * list Emit :=
  let st' :=
    {| sockets := delete sid (sockets st);
       rooms := (λ members, members ∖ {[sid]}) <$> rooms st;
       onlineUsers := map_delete sid (onlineUsers st);
       authenticating := authenticating st;
       db := db st |} in
  (st', [io_emit st' (users_online (map_values (onlineUsers st')))]).

(** A client event that arrives without a payload: the listener is called
    with [undefined], and destructuring [undefined] throws a [TypeError].

    - [authenticate] destructures inside its [try] (line 613): the [catch]
      of line 647 answers [auth_error];
    - [send_message] destructures inside its [try], after the guard
      (line 711): an unauthenticated socket gets the answer of the guard, an
      authenticated one the answer of the [catch] of line 749;
    - [join_conversation] and [typing] destructure in their parameter list
      (lines 659 and 756), outside any [try] and before the guard: the
      [async] listener of the first returns a rejected promise that nothing
      handles, the listener of the second throws; either way the process
      handler runs [shutdown], whether the socket is authenticated or not. *)
Definition on_no_payload (st : Server) (sid : SocketId) (socket : Socket)
  (name : ClientEvent) : Server * list Emit :=
  match name with
  | authenticate => (st, [socket_emit sid (auth_error TokenInvalid)])
  | send_message =>
      if falsy_num (sock_userId socket) then
        (st, [socket_emit sid (error NotAuthenticated)])
      else (st, [socket_emit sid (error SendFailure)])
  | join_conversation => (st, [shutdown])
  | typing => (st, [shutdown])
  end.

(** One event arriving on socket [sid].  Only a connected socket has
    listeners; the second half of a suspended [authenticate] handler runs
    whether or not its socket still is. *)
Definition handle (st : Server) (sid : SocketId) (env : Env) (ev : InEvent)
  : Server * list Emit :=
  match ev with
  | Connection tok => on_connection st sid tok
  | AuthenticateResume t => on_authenticate_resume st sid env t
  | _ =>
      match sockets st !! sid with
      | None => (st, [])
      | Some socket =>
          match ev with
          | Connection _ => (st, [])
          | AuthenticateResume _ => (st, [])
          | Authenticate token => on_authenticate st sid env token
          | JoinConversation userId friendId =>
              on_join_conversation st sid socket env userId friendId
          | SendMessage senderId receiverId content =>
              on_send_message st sid socket env senderId receiverId content
          | Typing receiverId isTyping => on_typing st sid socket receiverId isTyping
          | Disconnect => on_disconnect st sid
          | AuthenticateSuspend t => on_authenticate_suspend st sid t
          | NoPayload name => on_no_payload st sid socket name
          end
      end
  end.

(** A run of the server: the events in arrival order, each with its socket
    and environment; the result is the final state and every emission of the
    run, grouped by step. *)
Definition Step : Type := SocketId * Env * InEvent.

Fixpoint run (st : Server) (tr : list Step) : Server * list (list Emit) :=
  match tr with
  | [] => (st, [])
  | (sid, env, ev) :: tr' =>
      let r := handle st sid env ev in
      let r' := run r.1 tr' in
      (r'.1, r.2 :: r'.2)
  end.

(** ** The history reply as the specification words it

    "The most recent persisted history for that pair (bounded to the latest
    50 messages, ascending order)", the order being by [(timestamp, id)].
    This is the specification's reading, stated next to the query of the
    code ([history_query]) to compare the two. *)




(** ** Auxiliary notions for the statements *)

(** Decimal digits, to read a room id back. *)
Definition is_digit (c : ascii) : bool :=
  match c with
  | "0" | "1" | "2" | "3" | "4" | "5" | "6" | "7" | "8" | "9" => true
  | _ => false
  end%char.

Fixpoint all_digits (s : string) : bool :=
  match s with
  | EmptyString => true
  | String c s' => is_digit c && all_digits s'
  end.

(** The digits of an integer, its sign apart. *)
Definition abs_digits (n : Z) : string :=
  match Z.to_int n with
  | Decimal.Pos d => NilEmpty.string_of_uint d
  | Decimal.Neg d => NilEmpty.string_of_uint d
  end.

(** The state after a run, and the emissions of its steps. *)
Definition state_after (d : Db) (tr : list Step) : Server := (run (init d) tr).1.

(** What holds of the presence map throughout: it has one entry per key,
    each entry carries its key, and every connected socket that is bound to
    a user has an entry with that user.  (The converse does not hold: an
    entry can be that of a socket that is gone, see
    [on_authenticate_resume].) *)
Definition presence_inv (st : Server) : Prop :=
  NoDup (List.map fst (onlineUsers st))
  ∧ (∀ k v, In (k, v) (onlineUsers st) → ou_socketId v = k)
  ∧ (∀ k sock u, sockets st !! k = Some sock → sock_userId sock = Some u →
       ∃ v, In (k, v) (onlineUsers st) ∧ ou_userId v = u).

(** The events that end with the broadcast of a snapshot after writing an
    entry of the presence map: an [authenticate] that goes through, in one
    step or resumed. *)
Definition completes_authenticate (ev : InEvent) : bool :=
  match ev with
  | Authenticate _ | AuthenticateResume _ => true
  | _ => false
  end.


(** The user a token resolves to, if any: the token is there, it verifies,
    and the store finds the user it names. *)
Definition resolve_user (d : Db) (env : Env) (token : option Token)
  : option User :=
  match token with
  | Some t =>
      match verifyToken t with
      | Some id => if db_ok env then findUserById d id else None
      | None => None
      end
  | None => None
  end.


(** ** Scenarios *)

Module Scenario.

Definition alice : User := mkUser 1 "Alice" "0900000001".
Definition bob : User := mkUser 2 "Bob" "0900000002".
Definition carol : User := mkUser 3 "Carol" "0900000003".

Definition env0 : Env := mkEnv true 0 0.

(** An environment in which the store call fails. *)
Definition env_fail : Env := mkEnv false 0 0.

(** Three registered users, Alice and Bob friends, no messages yet. *)
Definition db0 : Db := mkDb [alice; bob; carol] [mkFriend 1 2] [] 0.

(** Alice has sent Bob 51 messages, one a second. *)
Definition db51 : Db :=
  mkDb [alice; bob; carol] [mkFriend 1 2]
    (List.map (λ i, mkRow (Z.of_nat i) 1 2 [104; 105]%N (Z.of_nat i)) (seq 1 51))
    51.

(** Alice is connected twice ([c1], [c2]) and Bob once ([c3]); all three
    joined the room of the pair. *)
Definition two_sessions : list Step :=
  [ ("c1", env0, Connection None);
    ("c2", env0, Connection None);
    ("c3", env0, Connection None);
    ("c1", env0, Authenticate (Some (Signed 1)));
    ("c2", env0, Authenticate (Some (Signed 1)));
    ("c3", env0, Authenticate (Some (Signed 2)));
    ("c1", env0, JoinConversation 1 2);
    ("c2", env0, JoinConversation 1 2);
    ("c3", env0, JoinConversation 2 1) ].

(** Bob authenticates first, then Alice on two sockets. *)
Definition bob_then_alice_twice : list Step :=
  [ ("c3", env0, Connection None);
    ("c1", env0, Connection None);
    ("c2", env0, Connection None);
    ("c3", env0, Authenticate (Some (Signed 2)));
    ("c1", env0, Authenticate (Some (Signed 1))) ].

(** Alice alone, authenticated. *)
Definition alice_online : list Step :=
  [ ("c1", env0, Connection None);
    ("c1", env0, Authenticate (Some (Signed 1))) ].

(** A socket that connected and never authenticated. *)
Definition anonymous : list Step := [ ("c9", env0, Connection None) ].


(** Bob is online on [c3].  Alice connects on [c1] and sends
    [authenticate]; her socket disconnects while the handler awaits. *)
Definition alice_leaves_early : list Step :=
  [ ("c3", env0, Connection None);
    ("c3", env0, Authenticate (Some (Signed 2)));
    ("c1", env0, Connection None);
    ("c1", env0, AuthenticateSuspend (Signed 1));
    ("c1", env0, Disconnect) ].


End Scenario.

(** ** Notions for the session layer as a whole *)

(** The events that reach the guard [if (!socket.userId)] of their
    listener: [join_conversation] and [typing] with their payload, and
    [send_message] with or without one. *)
Definition guarded (ev : InEvent) : bool :=
  match ev with
  | JoinConversation _ _ | SendMessage _ _ _ | Typing _ _
  | NoPayload send_message => true
  | _ => false
  end.

(** What the guard answers: [join_conversation] and [send_message] emit the
    error to the socket, [typing] returns without a word. *)
Definition guard_answer (sid : SocketId) (ev : InEvent) : list Emit :=
  match ev with
  | Typing _ _ => []
  | _ => [socket_emit sid (error NotAuthenticated)]
  end.


(** A content as [send_message] stores it: not empty, and no white space at
    either end. *)
Definition trimmed (s : JsString) : Prop :=
  s ≠ []
  ∧ (∀ c t, s = c :: t → isWhiteSpace c = false)
  ∧ (∀ c t, s = t ++ [c] → isWhiteSpace c = false).

(** An environment whose clocks are past every timestamp of the scenarios. *)
Definition env_later : Env := mkEnv true 100 100.

(** * The HTTP routes of [server/index.js]

    The routes work on the same tables.  Strings of the HTTP layer (names,
    phones, passwords, header values, path segments) are strings of code
    units below 256. *)

(** ** Strings *)

Definition code_units (s : string) : JsString :=
  List.map N_of_ascii (list_ascii_of_string s).

Definition of_code_units (l : JsString) : string :=
  string_of_list_ascii (List.map ascii_of_N l).

(** [s.trim()]. *)
Definition trim_string (s : string) : string :=
  of_code_units (trim (code_units s)).

(** [!s]. *)
Definition empty_string (s : string) : bool :=
  match s with
  | EmptyString => true
  | _ => false
  end.

(** [s.split(sep)] for a separator of one character: always at least one
    piece. *)
Fixpoint split_on (sep : ascii) (s : string) : list string :=
  match s with
  | EmptyString => [EmptyString]
  | String c s' =>
      match split_on sep s' with
      | [] => [EmptyString]
      | p :: ps =>
          if Ascii.eqb c sep then EmptyString :: p :: ps
          else String c p :: ps
      end
  end.

(** The value of a character as a digit in the given radix: [0-9], then
    [a-z] or [A-Z] for ten and more. *)
Definition digit_value (radix : Z) (c : ascii) : option Z :=
  let n := Z.of_N (N_of_ascii c) in
  let v :=
    if (48 <=? n) && (n <=? 57) then Some (n - 48)
    else if (97 <=? n) && (n <=? 122) then Some (n - 87)
    else if (65 <=? n) && (n <=? 90) then Some (n - 55)
    else None in
  match v with
  | Some d => if d <? radix then Some d else None
  | None => None
  end.

(** The value of the longest prefix of digits, continuing from [acc]. *)
Fixpoint parse_digits (radix : Z) (acc : Z) (s : string) : Z :=
  match s with
  | EmptyString => acc
  | String c s' =>
      match digit_value radix c with
      | Some d => parse_digits radix (acc * radix + d) s'
      | None => acc
      end
  end.

Definition starts_with_digit (radix : Z) (s : string) : bool :=
  match s with
  | EmptyString => false
  | String c _ =>
      match digit_value radix c with
      | Some _ => true
      | None => false
      end
  end.

(** The digits of [parseInt], after the sign: [0x] or [0X] switches to
    radix 16; the digits that follow are read up to the first character that
    is not one, and there must be at least one.  [None] is [NaN]. *)
Definition parse_unsigned (sign : Z) (s : string) : option Z :=
  let '(radix, digits) :=
    match s with
    | String "0" (String "x" r) => (16, r)
    | String "0" (String "X" r) => (16, r)
    | _ => (10, s)
    end%char in
  if starts_with_digit radix digits
  then Some (sign * parse_digits radix 0 digits)
  else None.

(** [parseInt(s)] without a radix: leading white space is skipped, then an
    optional sign is read.  The result is the exact integer, which is what
    JavaScript returns up to [2^53] in absolute value, where row ids live;
    beyond that JavaScript returns the nearest double, which this definition
    does not follow. *)
Definition parseInt (s : string) : option Z :=
  match of_code_units (trimStart (code_units s)) with
  | String "-" r => parse_unsigned (-1) r
  | String "+" r => parse_unsigned 1 r
  | s1 => parse_unsigned 1 s1
  end%char.

(** ** Validation (lines 207-220) *)

(** [/^[0-9]{10,11}$/.test(phone)], after [if (!phone) return false]. *)
Definition validatePhoneNumber (phone : string) : bool :=
  negb (empty_string phone)
  && all_digits phone
  && (10 <=? String.length phone)%nat && (String.length phone <=? 11)%nat.

(** [password && typeof password === 'string' && password.length >= 6]. *)
Definition validatePassword (password : string) : bool :=
  negb (empty_string password) && (6 <=? String.length password)%nat.

(** [name && typeof name === 'string' && name.trim().length >= 2]. *)
Definition validateName (name : string) : bool :=
  negb (empty_string name) && (2 <=? String.length (trim_string name))%nat.

(** ** Responses *)

(** The [code] field of an error response. *)
Inductive Code :=
| NO_TOKEN | USER_NOT_FOUND | INVALID_TOKEN
| MISSING_FIELDS | INVALID_NAME | INVALID_PHONE | INVALID_PASSWORD
| PHONE_EXISTS | SERVER_ERROR | MISSING_CREDENTIALS | INVALID_CREDENTIALS
| DB_ERROR | MISSING_PHONE | SELF_FRIEND | ALREADY_FRIENDS
| INVALID_FRIEND_ID.

Inductive Payload :=
| Fail (code : Code)
| RegisterOk (user : User)
| LoginOk (token : string) (user : User)
| MeOk (user : User)
| FriendsOk (friends : list User)
| AddFriendOk (friend : User)
| MessagesOk (messages : list Message).

Record Response := mkResponse {
  status : Z;
  payload : Payload
}.

(** ** Libraries and environment *)

(** The two libraries behind the helpers of lines 114-155: what
    [jwt.verify] makes of a token string and the string [jwt.sign] makes for
    a user, and [bcrypt.hash] (with the salt it draws) and [bcrypt.compare]. *)
Record Libs := mkLibs {
  jwt_read : string → Token;
  jwt_sign : User → string;
  bcrypt_hash : string → string → string;
  bcrypt_compare : string → string → bool
}.

(** What a request takes from its environment: whether its [n]-th store
    call succeeds, and the salt [bcrypt.hash] draws. *)
Record HttpEnv := mkHttpEnv {
  store_ok : nat → bool;
  salt : string
}.

(** The [users] table with its [password] column: the column is kept beside
    the other columns, by row id. *)
Record Store := mkStore {
  store_db : Db;
  user_password : gmap Z string
}.

(** ** Helpers (lines 132-205) *)

Definition generateToken (libs : Libs) (user : User) : string :=
  jwt_sign libs user.

(** [SELECT * FROM users WHERE phone = ?] with [db.get]. *)
Definition findUserByPhone (d : Db) (phone : string) : option User :=
  List.find (λ u, String.eqb (user_phone u) phone) (users d).

(** The id [AUTOINCREMENT] gives the next row of [users]: one more than the
    largest id used (no route deletes a user). *)
Definition next_user_id (d : Db) : Z :=
  fold_right Z.max 0 (List.map user_id (users d)) + 1.

(** [INSERT INTO users (name, phone, password) VALUES (?, ?, ?)]: the new
    row and the store with it. *)
Definition createUser (s : Store) (name phone hashedPassword : string)
  : Store * User :=
  let user := mkUser (next_user_id (store_db s)) name phone in
  ({| store_db :=
        {| users := users (store_db s) ++ [user];
           friends := friends (store_db s);
           messages := messages (store_db s);
           msg_seq := msg_seq (store_db s) |};
      user_password := <[user_id user := hashedPassword]> (user_password s) |},
   user).

(** ** The middleware [authenticateToken] (lines 223-257)

    [authHeader && authHeader.split(' ')[1]]: the second piece of the
    header. *)
Definition header_token (authorization : option string) : option string :=
  match authorization with
  | None => None
  | Some h => if empty_string h then None else nth_error (split_on " " h) 1
  end.

(** The middleware either answers itself or hands the user to the route.
    [findUserById] is the request's store call 0; a failure of it lands in
    the [catch]. *)
Definition authenticateToken (libs : Libs) (d : Db) (env : HttpEnv)
  (authorization : option string) : Response + User :=
  match header_token authorization with
  | None => inl (mkResponse 401 (Fail NO_TOKEN))
  | Some token =>
      if empty_string token then inl (mkResponse 401 (Fail NO_TOKEN))
      else
        match verifyToken (jwt_read libs token) with
        | None => inl (mkResponse 403 (Fail INVALID_TOKEN))
        | Some id =>
            if negb (store_ok env 0) then
              inl (mkResponse 403 (Fail INVALID_TOKEN))
            else
              match findUserById d id with
              | None => inl (mkResponse 404 (Fail USER_NOT_FOUND))
              | Some user => inr user
              end
        end
  end.

(** ** [POST /api/auth/register] (lines 260-344)

    Store calls: 0 is [findUserByPhone], 1 is [createUser].  The three
    fields of the body are JSON strings, or missing.  (A phone sent as a JSON
    number also passes [validatePhoneNumber], which calls [toString] on it;
    the store then keeps the text it makes of the number.  That request is
    not among the ones this definition takes.) *)
Definition post_auth_register (libs : Libs) (s : Store) (env : HttpEnv)
  (name phone password : option string) : Store * Response :=
  match name, phone, password with
  | Some n, Some p, Some pw =>
      if empty_string n || empty_string p || empty_string pw then
        (s, mkResponse 400 (Fail MISSING_FIELDS))
      else if negb (validateName n) then
        (s, mkResponse 400 (Fail INVALID_NAME))
      else if negb (validatePhoneNumber p) then
        (s, mkResponse 400 (Fail INVALID_PHONE))
      else if negb (validatePassword pw) then
        (s, mkResponse 400 (Fail INVALID_PASSWORD))
      else if negb (store_ok env 0) then
        (s, mkResponse 500 (Fail SERVER_ERROR))
      else
        match findUserByPhone (store_db s) p with
        | Some _ => (s, mkResponse 409 (Fail PHONE_EXISTS))
        | None =>
            if negb (store_ok env 1) then
              (s, mkResponse 500 (Fail SERVER_ERROR))
            else
              let '(s', newUser) :=
                createUser s (trim_string n) p (bcrypt_hash libs (salt env) pw) in
              (s', mkResponse 201 (RegisterOk newUser))
        end
  | _, _, _ => (s, mkResponse 400 (Fail MISSING_FIELDS))
  end.

(** ** [POST /api/auth/login] (lines 346-413)

    Store call 0 is [findUserByPhone]; a row without a password makes
    [bcrypt.compare] throw, which lands in the [catch]. *)
Definition post_auth_login (libs : Libs) (s : Store) (env : HttpEnv)
  (phone password : option string) : Response :=
  match phone, password with
  | Some p, Some pw =>
      if empty_string p || empty_string pw then
        mkResponse 400 (Fail MISSING_CREDENTIALS)
      else if negb (store_ok env 0) then mkResponse 500 (Fail SERVER_ERROR)
      else
        match findUserByPhone (store_db s) p with
        | None => mkResponse 401 (Fail INVALID_CREDENTIALS)
        | Some user =>
            match user_password s !! user_id user with
            | None => mkResponse 500 (Fail SERVER_ERROR)
            | Some hashed =>
                if bcrypt_compare libs pw hashed then
                  mkResponse 200 (LoginOk (generateToken libs user) user)
                else mkResponse 401 (Fail INVALID_CREDENTIALS)
            end
        end
  | _, _ => mkResponse 400 (Fail MISSING_CREDENTIALS)
  end.

(** ** [GET /api/auth/me] (lines 415-421), after the middleware. *)
Definition get_auth_me (me : User) : Response := mkResponse 200 (MeOk me).

(** ** [GET /api/friends] (lines 424-451)

    The rows of the [friends] table all have the status ['accepted'], the
    only one the code writes; the table model has no [created_at], so the
    rows of the reply are [id, name, phone]. *)

(** The [ON] clause, for the user [me] and a row [u] of [users]. *)
Definition friend_link (me : Z) (u : User) (f : FriendRow) : bool :=
  (friend_user1 f =? me) && (friend_user2 f =? user_id u)
  || (friend_user2 f =? me) && (friend_user1 f =? user_id u).

Definition friends_join (d : Db) (me : Z) : list User :=
  flat_map
    (λ u, List.map (λ _, u) (List.filter (friend_link me u) (friends d)))
    (users d).

Definition User_eq_dec (x y : User) : {x = y} + {x ≠ y}.
Proof. decide equality; (apply string_dec || apply Z.eq_dec). Defined.

(** [ORDER BY u.name ASC], by code units; rows of equal name come out in
    scan order, that is in the order of the ids. *)
Fixpoint insert_by_name (u : User) (l : list User) : list User :=
  match l with
  | [] => [u]
  | x :: l' =>
      if String.leb (user_name u) (user_name x) then u :: l
      else x :: insert_by_name u l'
  end.

(** [SELECT DISTINCT ... ORDER BY u.name ASC]. *)
Definition friends_query (d : Db) (me : Z) : list User :=
  fold_right insert_by_name [] (List.nodup User_eq_dec (friends_join d me)).

(** The route, after the middleware; store call 1 is the query. *)
Definition get_friends (d : Db) (env : HttpEnv) (me : User) : Response :=
  if negb (store_ok env 1) then mkResponse 500 (Fail DB_ERROR)
  else mkResponse 200 (FriendsOk (friends_query d (user_id me))).

(** ** [POST /api/friends/add] (lines 453-553), after the middleware

    Store calls: 1 is [findUserByPhone], 2 the lookup of the friendship,
    3 the insertion.  The phone of the body is a JSON string, or missing.
    (A phone sent as a JSON number is never [===] to the user's own, a
    string: with it a user can reach their own row and be added as their own
    friend, the row being [(id, id)].  That request is not among the ones
    this definition takes.) *)

(** [WHERE (user1_id = ? AND user2_id = ?) OR (user1_id = ? AND user2_id = ?)]
    with the parameters [[me, friend, friend, me]]. *)
Definition friendship_exists (d : Db) (me friend : Z) : bool :=
  existsb
    (λ f, (friend_user1 f =? me) && (friend_user2 f =? friend)
          || (friend_user1 f =? friend) && (friend_user2 f =? me))
    (friends d).

Definition post_friends_add (d : Db) (env : HttpEnv) (me : User)
  (phone : option string) : Db * Response :=
  match phone with
  | None => (d, mkResponse 400 (Fail MISSING_PHONE))
  | Some p =>
      if empty_string p then (d, mkResponse 400 (Fail MISSING_PHONE))
      else if negb (validatePhoneNumber p) then
        (d, mkResponse 400 (Fail INVALID_PHONE))
      else if String.eqb p (user_phone me) then
        (d, mkResponse 400 (Fail SELF_FRIEND))
      else if negb (store_ok env 1) then
        (d, mkResponse 500 (Fail SERVER_ERROR))
      else
        match findUserByPhone d p with
        | None => (d, mkResponse 404 (Fail USER_NOT_FOUND))
        | Some friend =>
            if negb (store_ok env 2) then (d, mkResponse 500 (Fail DB_ERROR))
            else if friendship_exists d (user_id me) (user_id friend) then
              (d, mkResponse 409 (Fail ALREADY_FRIENDS))
            else if negb (store_ok env 3) then
              (d, mkResponse 500 (Fail DB_ERROR))
            else
              ({| users := users d;
                  friends :=
                    friends d
                    ++ [mkFriend (Z.min (user_id me) (user_id friend))
                          (Z.max (user_id me) (user_id friend))];
                  messages := messages d;
                  msg_seq := msg_seq d |},
               mkResponse 200 (AddFriendOk friend))
        end
  end.

(** ** [GET /api/messages/:friendId] (lines 556-601), after the middleware

    Store call 1 is the query, the one of [join_conversation] with
    [LIMIT 100]. *)
Definition get_messages (d : Db) (env : HttpEnv) (me : User) (param : string)
  : Response :=
  let friendId := parseInt param in
  if falsy_num friendId then mkResponse 400 (Fail INVALID_FRIEND_ID)
  else
    match friendId with
    | None => mkResponse 400 (Fail INVALID_FRIEND_ID)
    | Some f =>
        if negb (store_ok env 1) then mkResponse 500 (Fail DB_ERROR)
        else
          mkResponse 200
            (MessagesOk
               (List.map format_message
                  (firstn 100 (pair_history d (user_id me) f))))
    end.

(** A route behind the middleware. *)
Definition protected {S} (libs : Libs) (d : Db) (env : HttpEnv)
  (authorization : option string) (s : S) (route : User → S * Response)
  : S * Response :=
  match authenticateToken libs d env authorization with
  | inl response => (s, response)
  | inr me => route me
  end.

(** ** Notions for the statements on the routes *)

(** A character is not the separator anywhere in the string. *)
Fixpoint free_of (sep : ascii) (s : string) : bool :=
  match s with
  | EmptyString => true
  | String c s' => negb (Ascii.eqb c sep) && free_of sep s'
  end.

(** The [friends] table holds no row twice and no row with the larger id
    first. *)
Definition friends_wf (d : Db) : Prop :=
  (∀ f, In f (friends d) → friend_user1 f ≤ friend_user2 f)
  ∧ NoDup (friends d).

(** The [users] table has distinct ids and distinct phones, and every row
    has a password. *)
Definition users_wf (s : Store) : Prop :=
  NoDup (List.map user_id (users (store_db s)))
  ∧ NoDup (List.map user_phone (users (store_db s)))
  ∧ (∀ u, In u (users (store_db s)) →
       0 < user_id u ∧ is_Some (user_password s !! user_id u)).

(** ** Stand-ins to run the routes on examples *)

(** Libraries that keep nothing secret: the token of a user is the text of
    the id, and a password is stored as it is. *)
Definition plain_libs : Libs :=
  mkLibs
    (λ s, match parseInt s with
          | Some i => Signed i
          | None => Forged
          end)
    (λ u, toString (user_id u))
    (λ _ pw, pw)
    String.eqb.

(** An environment in which the store works. *)
Definition http_env0 : HttpEnv := mkHttpEnv (λ _, true) "salt".

(** The users of the scenarios with their passwords. *)
Definition store0 : Store :=
  mkStore Scenario.db0
    (<[1 := "alice-pw"]> (<[2 := "bob-pw"]> (<[3 := "carol-pw"]> ∅))).

(** * Properties *)

(** ** Room ids *)

Lemma string_of_uint_digits (d : Decimal.uint) :
  all_digits (NilEmpty.string_of_uint d) = true.
Proof. induction d; simpl; auto. Qed.

Lemma string_of_uint_nonempty (d : Decimal.uint) :
  d ≠ Decimal.Nil → NilEmpty.string_of_uint d ≠ EmptyString.
Proof. destruct d; simpl; congruence. Qed.

(** A run of digits followed by a dash determines where the dash is. *)
Lemma digits_dash_split (u v x y : string) :
  all_digits u = true → all_digits v = true →
  u +:+ String "-" x = v +:+ String "-" y → u = v ∧ x = y.
Proof.
  revert v. induction u as [|c u IH]; intros [|c' v] Hu Hv Heq; simpl in *.
  - injection Heq as ->. auto.
  - injection Heq as <- _. simpl in Hv. discriminate.
  - injection Heq as -> _. simpl in Hu. discriminate.
  - injection Heq as -> Heq.
    apply andb_prop in Hu as [_ Hu]. apply andb_prop in Hv as [_ Hv].
    destruct (IH v Hu Hv Heq) as [-> ->]. auto.
Qed.

Lemma toString_shape (n : Z) :
  all_digits (abs_digits n) = true ∧ abs_digits n ≠ EmptyString ∧
  toString n = if n <? 0 then String "-" (abs_digits n) else abs_digits n.
Proof.
  unfold toString, abs_digits.
  destruct n as [|p|p]; simpl; repeat split; try done;
    try apply string_of_uint_digits;
    apply string_of_uint_nonempty, Unsigned.to_uint_nonnil.
Qed.

Lemma toString_inj (a b : Z) : toString a = toString b → a = b.
Proof.
  unfold toString. intros H.
  apply DecimalZ.to_int_inj.
  assert (Hs : Some (Z.to_int a) = Some (Z.to_int b))
    by (rewrite <- !NilEmpty.isi; f_equal; exact H).
  congruence.
Qed.

(** Two integers joined by a dash can be read back. *)
Lemma toString_dash_inj (a b c d : Z) :
  toString a +:+ String "-" (toString b)
  = toString c +:+ String "-" (toString d) →
  a = c ∧ b = d.
Proof.
  destruct (toString_shape a) as (Ha & Na & ->).
  destruct (toString_shape c) as (Hc & Nc & ->).
  intros Heq.
  assert (Hab : abs_digits a = abs_digits c ∧ (a <? 0) = (c <? 0)
                ∧ toString b = toString d).
  { destruct (a <? 0), (c <? 0); simpl in Heq.
    - injection Heq as Heq.
      destruct (digits_dash_split _ _ _ _ Ha Hc Heq); auto.
    - destruct (abs_digits c) as [|x s]; [done|].
      injection Heq as <- _. simpl in Hc. discriminate.
    - destruct (abs_digits a) as [|x s]; [done|].
      injection Heq as -> _. simpl in Ha. discriminate.
    - destruct (digits_dash_split _ _ _ _ Ha Hc Heq); auto. }
  destruct Hab as (Hd & Hs & Hbd). split; [|by apply toString_inj].
  apply toString_inj.
  destruct (toString_shape a) as (_ & _ & ->).
  destruct (toString_shape c) as (_ & _ & ->).
  by rewrite Hd, Hs.
Qed.

(** The room id is the smaller id, a dash, the larger id. *)
Lemma roomId_sorted (a b : Z) :
  roomId a b = toString (Z.min a b) +:+ String "-" (toString (Z.max a b)).
Proof.
  unfold roomId, sort2. destruct (Z.ltb_spec (b - a) 0); simpl.
  - by rewrite Z.min_r, Z.max_l by lia.
  - by rewrite Z.min_l, Z.max_r by lia.
Qed.

(** C5: the room id of a pair does not depend on the order of the two ids,
    and for a fixed user two different peers give two different room ids. *)
Theorem roomId_comm_inj (a b c : Z) :
  roomId a b = roomId b a ∧ (b ≠ c → roomId a b ≠ roomId a c).
Proof.
  split.
  - rewrite !roomId_sorted. by rewrite Z.min_comm, Z.max_comm.
  - intros Hne Heq. rewrite !roomId_sorted in Heq.
    apply toString_dash_inj in Heq. lia.
Qed.

Lemma roomId_comm_inj_witness :
  roomId 1 2 = roomId 2 1 ∧ roomId 1 2 ≠ roomId 1 3.
Proof.
  destruct (roomId_comm_inj 1 2 3) as [Hc Hi].
  split; [exact Hc | apply Hi; lia].
Defined.

(** ** History on join *)

Lemma insert_by_timestamp_perm (r : JoinedRow) (l : list JoinedRow) :
  insert_by_timestamp r l ≡ₚ r :: l.
Proof.
  induction l as [|x l IH]; simpl; [done|].
  destruct (timestamp r.1 <=? timestamp x.1); [done|].
  rewrite IH. apply perm_swap.
Qed.

Lemma order_by_timestamp_perm (l : list JoinedRow) : order_by_timestamp l ≡ₚ l.
Proof.
  induction l as [|x l IH]; simpl; [done|].
  by rewrite insert_by_timestamp_perm, IH.
Qed.



Lemma order_by_timestamp_length (l : list JoinedRow) :
  length (order_by_timestamp l) = length l.
Proof. apply Permutation_length, order_by_timestamp_perm. Qed.






(** ** Typing indicator *)

Lemma receives_singleton (e : Emit) (c : SocketId) (ev : OutEvent) :
  receives [e] c ev ↔ event e = ev ∧ c ∈ targets e.
Proof.
  unfold receives. split.
  - intros (e' & [<-|[]] & H). exact H.
  - intros H. exists e. split; [by left | exact H].
Qed.

Lemma receives_nil (c : SocketId) (ev : OutEvent) : ¬ receives [] c ev.
Proof. by intros (e & [] & _). Qed.

(** The one emission of the typing handler on an authenticated socket. *)
Lemma handle_typing st sid socket env a receiverId isTyping :
  sockets st !! sid = Some socket →
  sock_userId socket = Some a →
  a ≠ 0 →
  handle st sid env (Typing receiverId isTyping)
  = (st, [socket_to_emit st sid (roomId a receiverId)
            (user_typing a (sock_userName socket) isTyping)]).
Proof.
  intros Hsock Hid Ha. unfold handle, on_typing. rewrite Hsock, Hid.
  by destruct (Z.eqb_spec a 0).
Qed.

(** C2, as the code has it: a typing event of an authenticated socket goes
    to every socket joined to the room of the pair except the sending socket
    itself, whoever those sockets are bound to, and changes nothing. *)
Theorem typing_excludes_sending_socket st sid socket env a receiverId isTyping :
  sockets st !! sid = Some socket →
  sock_userId socket = Some a →
  a ≠ 0 →
  let r := handle st sid env (Typing receiverId isTyping) in
  r.1 = st
  ∧ ∀ c ev,
      receives r.2 c ev
      ↔ ev = user_typing a (sock_userName socket) isTyping
        ∧ c ∈ room_members st (roomId a receiverId)
        ∧ c ≠ sid.
Proof.
  intros Hsock Hid Ha r. unfold r.
  rewrite (handle_typing _ _ _ _ _ _ _ Hsock Hid Ha). simpl.
  split; [done|]. intros c ev.
  rewrite receives_singleton. simpl.
  rewrite elem_of_difference, not_elem_of_singleton. intuition congruence.
Qed.

Lemma typing_excludes_sending_socket_witness :
  let st := state_after Scenario.db0 Scenario.two_sessions in
  let r := handle st "c1" Scenario.env0 (Typing 2 true) in
  r.1 = st
  ∧ ∀ c ev,
      receives r.2 c ev
      ↔ ev = user_typing 1 (Some "Alice") true
        ∧ c ∈ room_members st (roomId 1 2)
        ∧ c ≠ "c1".
Proof.
  apply (typing_excludes_sending_socket
           (state_after Scenario.db0 Scenario.two_sessions) "c1"
           (mkSocket (Some 1) (Some "Alice") (Some "0900000001"))
           Scenario.env0 1 2 true).
  - vm_compute. reflexivity.
  - reflexivity.
  - lia.
Defined.

(** C2 as stated fails: Alice types on [c1]; her other socket [c2], joined
    to the same room, is sent [user_typing] as Bob's socket [c3] is. *)
Lemma typing_reaches_own_other_socket :
  let st := state_after Scenario.db0 Scenario.two_sessions in
  let r := handle st "c1" Scenario.env0 (Typing 2 true) in
  sock_userId <$> sockets st !! "c1" = Some (Some 1)
  ∧ sock_userId <$> sockets st !! "c2" = Some (Some 1)
  ∧ sock_userId <$> sockets st !! "c3" = Some (Some 2)
  ∧ room_members st (roomId 1 2) = {["c1"; "c2"; "c3"]}
  ∧ receives r.2 "c2" (user_typing 1 (Some "Alice") true)
  ∧ receives r.2 "c3" (user_typing 1 (Some "Alice") true)
  ∧ ¬ receives r.2 "c1" (user_typing 1 (Some "Alice") true).
Proof.
  intros st r.
  assert (H1 : sockets st !! "c1"
               = Some (mkSocket (Some 1) (Some "Alice") (Some "0900000001")))
    by (vm_compute; reflexivity).
  assert (H2 : sock_userId <$> sockets st !! "c2" = Some (Some 1))
    by (vm_compute; reflexivity).
  assert (H3 : sock_userId <$> sockets st !! "c3" = Some (Some 2))
    by (vm_compute; reflexivity).
  assert (Hm : room_members st (roomId 1 2) = {["c1"; "c2"; "c3"]})
    by (vm_compute; reflexivity).
  assert (Hr : r = (st, [socket_to_emit st "c1" (roomId 1 2)
                           (user_typing 1 (Some "Alice") true)]))
    by (apply (handle_typing st "c1" _ Scenario.env0 1 2 true H1); [reflexivity | lia]).
  clearbody r. clearbody st. subst r.
  rewrite H1, H2, H3, Hm. cbn [snd fmap option_fmap option_map sock_userId].
  rewrite !receives_singleton. unfold socket_to_emit. cbn [targets event].
  rewrite Hm. set_solver.
Qed.

(** ** Sending a message *)

Lemma trimStart_nil_iff (s : JsString) :
  trimStart s = [] ↔ forallb isWhiteSpace s = true.
Proof.
  induction s as [|c s IH]; simpl; [done|].
  destruct (isWhiteSpace c); simpl; [exact IH|]. split; discriminate.
Qed.

Lemma trimStart_head (s t : JsString) (c : N) :
  trimStart s = c :: t → isWhiteSpace c = false.
Proof.
  induction s as [|x s IH]; simpl; [discriminate|].
  destruct (isWhiteSpace x) eqn:Hx; [exact IH|]. by intros [= <- _].
Qed.

Lemma forallb_rev {A} (f : A → bool) (l : list A) :
  forallb f (rev l) = forallb f l.
Proof.
  induction l as [|x l IH]; simpl; [done|].
  rewrite forallb_app, IH. simpl. rewrite andb_true_r. apply andb_comm.
Qed.

(** [content.trim()] is empty exactly when [content] is empty or holds
    white space only. *)
Lemma trim_nil_iff (s : JsString) :
  trim s = [] ↔ forallb isWhiteSpace s = true.
Proof.
  rewrite <- trimStart_nil_iff. unfold trim, trimEnd. split.
  - intros H. apply (f_equal (@rev N)) in H. rewrite rev_involutive in H.
    simpl in H. apply trimStart_nil_iff in H. rewrite forallb_rev in H.
    destruct (trimStart s) as [|c t] eqn:Hs; [done|].
    apply trimStart_head in Hs. simpl in H. rewrite Hs in H. discriminate.
  - by intros ->.
Qed.

(** The emptiness test of line 713. *)
Lemma empty_check_iff (s : JsString) :
  falsy_string s || falsy_string (trim s) = true ↔ trim s = [].
Proof.
  split.
  - destruct s as [|c s]; [done|]. simpl falsy_string at 1. simpl orb.
    by destruct (trim (c :: s)).
  - intros ->. apply orb_true_r.
Qed.

Lemma empty_check_false (s : JsString) :
  trim s ≠ [] → falsy_string s || falsy_string (trim s) = false.
Proof.
  intros H. apply not_true_is_false. by rewrite empty_check_iff.
Qed.

(** The four ways [send_message] is rejected, and the way it goes through. *)
Lemma handle_send_unauthenticated st sid socket env senderId receiverId content :
  sockets st !! sid = Some socket →
  falsy_num (sock_userId socket) = true →
  handle st sid env (SendMessage senderId receiverId content)
  = (st, [socket_emit sid (error NotAuthenticated)]).
Proof.
  intros Hs Hf. unfold handle, on_send_message. by rewrite Hs, Hf.
Qed.

Lemma handle_send_empty st sid socket env senderId receiverId content :
  sockets st !! sid = Some socket →
  falsy_num (sock_userId socket) = false →
  trim content = [] →
  handle st sid env (SendMessage senderId receiverId content)
  = (st, [socket_emit sid (error EmptyContent)]).
Proof.
  intros Hs Hf Ht. unfold handle, on_send_message. rewrite Hs, Hf.
  apply empty_check_iff in Ht. by rewrite Ht.
Qed.

Lemma handle_send_forbidden st sid socket env senderId receiverId content :
  sockets st !! sid = Some socket →
  falsy_num (sock_userId socket) = false →
  trim content ≠ [] →
  Some senderId ≠ sock_userId socket →
  handle st sid env (SendMessage senderId receiverId content)
  = (st, [socket_emit sid (error Forbidden)]).
Proof.
  intros Hs Hf Ht Hne. unfold handle, on_send_message.
  rewrite Hs, Hf, (empty_check_false _ Ht).
  by rewrite bool_decide_eq_false_2.
Qed.

Lemma handle_send_store_failure st sid socket env senderId receiverId content :
  sockets st !! sid = Some socket →
  falsy_num (sock_userId socket) = false →
  trim content ≠ [] →
  Some senderId = sock_userId socket →
  db_ok env = false →
  handle st sid env (SendMessage senderId receiverId content)
  = (st, [socket_emit sid (error PersistenceFailure)]).
Proof.
  intros Hs Hf Ht He Hdb. unfold handle, on_send_message, db_run_insert_message.
  rewrite Hs, Hf, (empty_check_false _ Ht), Hdb.
  by rewrite bool_decide_eq_true_2.
Qed.

Lemma handle_send_stored st sid socket env senderId receiverId content :
  sockets st !! sid = Some socket →
  falsy_num (sock_userId socket) = false →
  trim content ≠ [] →
  Some senderId = sock_userId socket →
  db_ok env = true →
  handle st sid env (SendMessage senderId receiverId content)
  = ({| sockets := sockets st;
        rooms := rooms st;
        onlineUsers := onlineUsers st;
        authenticating := authenticating st;
        db := {| users := users (db st);
                 friends := friends (db st);
                 messages :=
                   messages (db st)
                   ++ [mkRow (msg_seq (db st) + 1) senderId receiverId
                         (trim content) (db_now env)];
                 msg_seq := msg_seq (db st) + 1 |} |},
     [mkEmit (room_members st (roomId senderId receiverId))
        (new_message
           (mkMessage (msg_seq (db st) + 1) senderId receiverId (trim content)
              (js_now env) (sock_userName socket)))]).
Proof.
  intros Hs Hf Ht He Hdb. unfold handle, on_send_message, db_run_insert_message.
  rewrite Hs, Hf, (empty_check_false _ Ht), Hdb.
  by rewrite bool_decide_eq_true_2.
Qed.

(** Every outcome of [send_message] on a connected socket. *)
Lemma handle_send_cases st sid socket env senderId receiverId content :
  sockets st !! sid = Some socket →
  let r := handle st sid env (SendMessage senderId receiverId content) in
  (∃ e, r = (st, [socket_emit sid (error e)]))
  ∨ (db_ok env = true
     ∧ falsy_num (sock_userId socket) = false
     ∧ trim content ≠ []
     ∧ Some senderId = sock_userId socket).
Proof.
  intros Hs r. unfold r.
  destruct (falsy_num (sock_userId socket)) eqn:Hf.
  { left. eexists. by eapply handle_send_unauthenticated. }
  destruct (decide (trim content = [])) as [Ht|Ht].
  { left. eexists. by eapply handle_send_empty. }
  destruct (decide (Some senderId = sock_userId socket)) as [He|He].
  2:{ left. eexists. by eapply handle_send_forbidden. }
  destruct (db_ok env) eqn:Hdb; [by right|].
  left. eexists. by eapply handle_send_store_failure.
Qed.

Lemma error_is_not_new_message sid e c m :
  ¬ receives [socket_emit sid (error e)] c (new_message m).
Proof. rewrite receives_singleton. simpl. by intros [? _]. Qed.

(** C3: when an authenticated socket sends a message, whoever is sent
    [new_message] is sent it with the id the store assigned to the row the
    write appended; when the write fails the state is unchanged, nobody is
    sent [new_message], and the sender is sent the error event. *)
Theorem new_message_only_after_persisted
  st sid socket env senderId receiverId content :
  sockets st !! sid = Some socket →
  falsy_num (sock_userId socket) = false →
  let r := handle st sid env (SendMessage senderId receiverId content) in
  (∀ c m, receives r.2 c (new_message m) →
     db_ok env = true
     ∧ m_id m = msg_seq (db st) + 1
     ∧ messages (db r.1)
       = messages (db st)
         ++ [mkRow (m_id m) (m_senderId m) (m_receiverId m) (m_content m)
               (db_now env)])
  ∧ (trim content ≠ [] → Some senderId = sock_userId socket →
     db_ok env = false →
     r.1 = st
     ∧ r.2 = [socket_emit sid (error PersistenceFailure)]
     ∧ ∀ c m, ¬ receives r.2 c (new_message m)).
Proof.
  intros Hs Hf r. split.
  - intros c m Hrecv.
    destruct (handle_send_cases st sid socket env senderId receiverId content Hs)
      as [(e & He)|(Hdb & _ & Ht & Heq)].
    + unfold r in Hrecv. rewrite He in Hrecv. by apply error_is_not_new_message in Hrecv.
    + unfold r in *.
      rewrite (handle_send_stored _ _ _ _ _ _ _ Hs Hf Ht Heq Hdb) in *.
      apply receives_singleton in Hrecv as [[= <-] _]. by simpl.
  - intros Ht Heq Hdb. unfold r.
    rewrite (handle_send_store_failure _ _ _ _ _ _ _ Hs Hf Ht Heq Hdb).
    repeat split. intros c m. apply error_is_not_new_message.
Qed.

Lemma new_message_only_after_persisted_witness :
  let st := state_after Scenario.db0 Scenario.alice_online in
  let ok := handle st "c1" Scenario.env0 (SendMessage 1 2 [104; 105]%N) in
  let ko := handle st "c1" Scenario.env_fail (SendMessage 1 2 [104; 105]%N) in
  (∀ c m, receives ok.2 c (new_message m) →
     db_ok Scenario.env0 = true
     ∧ m_id m = msg_seq (db st) + 1
     ∧ messages (db ok.1)
       = messages (db st)
         ++ [mkRow (m_id m) (m_senderId m) (m_receiverId m) (m_content m)
               (db_now Scenario.env0)])
  ∧ (ko.1 = st
     ∧ ko.2 = [socket_emit "c1" (error PersistenceFailure)]
     ∧ ∀ c m, ¬ receives ko.2 c (new_message m)).
Proof.
  intros st ok ko.
  assert (Hs : sockets st !! "c1"
               = Some (mkSocket (Some 1) (Some "Alice") (Some "0900000001")))
    by (vm_compute; reflexivity).
  split.
  - apply (new_message_only_after_persisted st "c1" _ Scenario.env0
             1 2 [104; 105]%N Hs). reflexivity.
  - apply (new_message_only_after_persisted st "c1" _ Scenario.env_fail
             1 2 [104; 105]%N Hs).
    + reflexivity.
    + vm_compute. discriminate.
    + reflexivity.
    + reflexivity.
Defined.

(** C6: a [send_message] whose content is empty or white space only is
    rejected: nothing is stored, nobody is sent [new_message], and the one
    thing emitted is an error to the sender, which is [EmptyContent] once the
    socket has passed the authentication check that comes first. *)
Theorem send_empty_rejected st sid socket env senderId receiverId content :
  sockets st !! sid = Some socket →
  trim content = [] →
  let r := handle st sid env (SendMessage senderId receiverId content) in
  r.1 = st
  ∧ (∀ c m, ¬ receives r.2 c (new_message m))
  ∧ ∃ e, r.2 = [socket_emit sid (error e)]
         ∧ (falsy_num (sock_userId socket) = false → e = EmptyContent).
Proof.
  intros Hs Ht r. unfold r.
  destruct (falsy_num (sock_userId socket)) eqn:Hf.
  - rewrite (handle_send_unauthenticated _ _ _ _ _ _ _ Hs Hf).
    split; [done|]. split; [intros c m; apply error_is_not_new_message|].
    by eexists.
  - rewrite (handle_send_empty _ _ _ _ _ _ _ Hs Hf Ht).
    split; [done|]. split; [intros c m; apply error_is_not_new_message|].
    by eexists.
Qed.

Lemma send_empty_rejected_witness :
  let st := state_after Scenario.db0 Scenario.alice_online in
  let r := handle st "c1" Scenario.env0 (SendMessage 1 2 [32; 9]%N) in
  r.1 = st
  ∧ (∀ c m, ¬ receives r.2 c (new_message m))
  ∧ r.2 = [socket_emit "c1" (error EmptyContent)].
Proof.
  intros st r.
  destruct (send_empty_rejected
              (state_after Scenario.db0 Scenario.alice_online) "c1"
              (mkSocket (Some 1) (Some "Alice") (Some "0900000001"))
              Scenario.env0 1 2 [32; 9]%N) as (H1 & H2 & e & H3 & H4).
  - vm_compute. reflexivity.
  - reflexivity.
  - split; [exact H1|]. split; [exact H2|].
    rewrite <- (H4 eq_refl). exact H3.
Defined.

(** C7: on an authenticated socket a [send_message] whose [senderId] is not
    the socket's user is rejected: nothing is stored, nobody is sent
    [new_message], the socket stays connected, and the one thing emitted is
    an error to the sender, which is [Forbidden] once the content has passed
    the emptiness check that comes first. *)
Theorem send_spoofed_rejected st sid socket env w senderId receiverId content :
  sockets st !! sid = Some socket →
  sock_userId socket = Some w →
  w ≠ 0 →
  senderId ≠ w →
  let r := handle st sid env (SendMessage senderId receiverId content) in
  r.1 = st
  ∧ sockets r.1 !! sid = Some socket
  ∧ (∀ c m, ¬ receives r.2 c (new_message m))
  ∧ ∃ e, r.2 = [socket_emit sid (error e)]
         ∧ (trim content ≠ [] → e = Forbidden).
Proof.
  intros Hs Hw Hw0 Hne r. unfold r.
  assert (Hf : falsy_num (sock_userId socket) = false)
    by (rewrite Hw; simpl; lia).
  destruct (decide (trim content = [])) as [Ht|Ht].
  - rewrite (handle_send_empty _ _ _ _ _ _ _ Hs Hf Ht).
    split; [done|]. split; [done|].
    split; [intros c m; apply error_is_not_new_message|].
    eexists. split; [reflexivity|]. done.
  - rewrite (handle_send_forbidden _ _ _ _ senderId receiverId content Hs Hf Ht)
      by (rewrite Hw; congruence).
    split; [done|]. split; [done|].
    split; [intros c m; apply error_is_not_new_message|].
    by eexists.
Qed.

Lemma send_spoofed_rejected_witness :
  let st := state_after Scenario.db0 Scenario.alice_online in
  let r := handle st "c1" Scenario.env0 (SendMessage 2 1 [104; 105]%N) in
  r.1 = st
  ∧ sockets r.1 !! "c1"
    = Some (mkSocket (Some 1) (Some "Alice") (Some "0900000001"))
  ∧ (∀ c m, ¬ receives r.2 c (new_message m))
  ∧ r.2 = [socket_emit "c1" (error Forbidden)].
Proof.
  intros st r.
  destruct (send_spoofed_rejected
              (state_after Scenario.db0 Scenario.alice_online) "c1"
              (mkSocket (Some 1) (Some "Alice") (Some "0900000001"))
              Scenario.env0 1 2 1 [104; 105]%N) as (H1 & H2 & H3 & e & H4 & H5).
  - vm_compute. reflexivity.
  - reflexivity.
  - lia.
  - lia.
  - split; [exact H1|]. split; [exact H2|]. split; [exact H3|].
    rewrite <- H5; [exact H4|]. vm_compute. discriminate.
Defined.

(** C10: an authenticated socket that sends, in its own name, a message
    whose trimmed content is not empty gets it stored and broadcast to the
    room of the pair whatever the receiver id is: neither the [users] nor the
    [friends] table is consulted (the store accepting the write). *)
Theorem send_any_receiver st sid socket env w receiverId content :
  sockets st !! sid = Some socket →
  sock_userId socket = Some w →
  w ≠ 0 →
  trim content ≠ [] →
  db_ok env = true →
  let r := handle st sid env (SendMessage w receiverId content) in
  let m := mkMessage (msg_seq (db st) + 1) w receiverId (trim content)
             (js_now env) (sock_userName socket) in
  messages (db r.1)
  = messages (db st)
    ++ [mkRow (msg_seq (db st) + 1) w receiverId (trim content) (db_now env)]
  ∧ r.2 = [io_to_emit st (roomId w receiverId) (new_message m)]
  ∧ ∀ c, receives r.2 c (new_message m)
         ↔ c ∈ room_members st (roomId w receiverId).
Proof.
  intros Hs Hw Hw0 Ht Hdb r m. unfold r.
  assert (Hf : falsy_num (sock_userId socket) = false)
    by (rewrite Hw; simpl; lia).
  rewrite (handle_send_stored _ _ _ _ w receiverId content Hs Hf Ht)
    by (rewrite ?Hw; done).
  simpl. repeat split; try done.
  - intros H. by apply receives_singleton in H as [_ H].
  - intros H. by apply receives_singleton.
Qed.

Lemma send_any_receiver_witness :
  let st := state_after Scenario.db0 Scenario.alice_online in
  let r := handle st "c1" Scenario.env0 (SendMessage 1 404 [104; 105]%N) in
  let m := mkMessage (msg_seq (db st) + 1) 1 404 (trim [104; 105]%N)
             (js_now Scenario.env0) (Some "Alice") in
  messages (db r.1)
  = messages (db st)
    ++ [mkRow (msg_seq (db st) + 1) 1 404 (trim [104; 105]%N)
          (db_now Scenario.env0)]
  ∧ r.2 = [io_to_emit st (roomId 1 404) (new_message m)]
  ∧ ∀ c, receives r.2 c (new_message m)
         ↔ c ∈ room_members st (roomId 1 404).
Proof.
  apply (send_any_receiver
           (state_after Scenario.db0 Scenario.alice_online) "c1"
           (mkSocket (Some 1) (Some "Alice") (Some "0900000001"))
           Scenario.env0 1 404 [104; 105]%N).
  - vm_compute. reflexivity.
  - reflexivity.
  - lia.
  - vm_compute. discriminate.
  - reflexivity.
Defined.

(** ** Joining a conversation *)



(** ** Authentication *)

Lemma handle_authenticate_failure st sid socket env token :
  sockets st !! sid = Some socket →
  resolve_user (db st) env token = None →
  ∃ e, handle st sid env (Authenticate token)
       = (st, [socket_emit sid (auth_error e)]).
Proof.
  intros Hs Hr. unfold handle, on_authenticate. rewrite Hs.
  unfold resolve_user in Hr.
  destruct token as [t|]; simpl in *; [|by eexists].
  destruct (verifyToken t) as [i|]; simpl in *; [|by eexists].
  destruct (db_ok env); simpl in *; [|by eexists].
  rewrite Hr. by eexists.
Qed.

Lemma handle_authenticate_success st sid socket env token user :
  sockets st !! sid = Some socket →
  resolve_user (db st) env token
  = Some user →
  let st' :=
    {| sockets :=
         <[sid := mkSocket (Some (user_id user)) (Some (user_name user))
                    (Some (user_phone user))]> (sockets st);
       rooms := rooms st;
       onlineUsers :=
         map_set sid
           (mkOnline (user_id user) (user_name user) (user_phone user) sid
              (js_now env))
           (onlineUsers st);
       authenticating := authenticating st;
       db := db st |} in
  handle st sid env (Authenticate token)
  = (st', [socket_emit sid (auth_success user);
           io_emit st' (users_online (map_values (onlineUsers st')))]).
Proof.
  intros Hs Hr. unfold handle, on_authenticate. rewrite Hs.
  unfold resolve_user in Hr.
  destruct token as [t|]; simpl in *; [|done].
  destruct (verifyToken t) as [i|]; simpl in *; [|done].
  destruct (db_ok env); simpl in *; [|done].
  by rewrite Hr.
Qed.

(** C8, as the code has it: [authenticate] on a socket that is already
    bound is treated like the first one.  With a token that resolves to a
    user it binds the socket to that user, replaces the socket's entry in the
    presence map, answers [auth_success] and broadcasts [users_online];
    otherwise it answers [auth_error] and changes nothing. *)
Theorem authenticate_again_rebinds st sid socket env u0 token :
  sockets st !! sid = Some socket →
  sock_userId socket = Some u0 →
  let r := handle st sid env (Authenticate token) in
  match resolve_user (db st) env token with
  | Some user =>
      sockets r.1 !! sid
      = Some (mkSocket (Some (user_id user)) (Some (user_name user))
                (Some (user_phone user)))
      ∧ onlineUsers r.1
        = map_set sid
            (mkOnline (user_id user) (user_name user) (user_phone user) sid
               (js_now env))
            (onlineUsers st)
      ∧ r.2 = [socket_emit sid (auth_success user);
               io_emit r.1 (users_online (map_values (onlineUsers r.1)))]
  | None => r.1 = st ∧ ∃ e, r.2 = [socket_emit sid (auth_error e)]
  end.
Proof.
  intros Hs _ r.
  destruct (resolve_user (db st) env token) as [user|] eqn:Hr.
  - unfold r. rewrite (handle_authenticate_success _ _ _ _ _ _ Hs Hr). simpl.
    by rewrite lookup_insert_eq.
  - destruct (handle_authenticate_failure _ _ _ _ _ Hs Hr) as [e He].
    unfold r. rewrite He. simpl. eauto.
Qed.

Lemma authenticate_again_rebinds_witness :
  let st := state_after Scenario.db0 Scenario.alice_online in
  let r := handle st "c1" Scenario.env0 (Authenticate (Some (Signed 2))) in
  sockets r.1 !! "c1" = Some (mkSocket (Some 2) (Some "Bob") (Some "0900000002"))
  ∧ onlineUsers r.1
    = map_set "c1" (mkOnline 2 "Bob" "0900000002" "c1" 0) (onlineUsers st)
  ∧ r.2 = [socket_emit "c1" (auth_success Scenario.bob);
           io_emit r.1 (users_online (map_values (onlineUsers r.1)))].
Proof.
  apply (authenticate_again_rebinds
           (state_after Scenario.db0 Scenario.alice_online) "c1"
           (mkSocket (Some 1) (Some "Alice") (Some "0900000001"))
           Scenario.env0 1 (Some (Signed 2))).
  - vm_compute. reflexivity.
  - reflexivity.
Defined.

(** C8 as stated fails: Alice's socket authenticates again with Bob's
    token; it is answered [auth_success], no error, and is now Bob's. *)
Lemma authenticate_again_succeeds :
  let st := state_after Scenario.db0 Scenario.alice_online in
  let r := handle st "c1" Scenario.env0 (Authenticate (Some (Signed 2))) in
  sock_userId <$> sockets st !! "c1" = Some (Some 1)
  ∧ sock_userId <$> sockets r.1 !! "c1" = Some (Some 2)
  ∧ List.map ou_userId (map_values (onlineUsers r.1)) = [2]
  ∧ receives r.2 "c1" (auth_success Scenario.bob)
  ∧ ∀ e, ¬ receives r.2 "c1" (auth_error e).
Proof.
  intros st r.
  assert (Hs : sockets st !! "c1"
               = Some (mkSocket (Some 1) (Some "Alice") (Some "0900000001")))
    by (vm_compute; reflexivity).
  assert (Ho : onlineUsers st = [("c1", mkOnline 1 "Alice" "0900000001" "c1" 0)])
    by (vm_compute; reflexivity).
  assert (Hd : users (db st) = [Scenario.alice; Scenario.bob; Scenario.carol])
    by (vm_compute; reflexivity).
  pose proof (handle_authenticate_success st "c1" _ Scenario.env0
                (Some (Signed 2)) Scenario.bob Hs) as Hr.
  fold r in Hr. unfold resolve_user in Hr. simpl in Hr.
  unfold findUserById in Hr. rewrite Hd in Hr.
  specialize (Hr eq_refl). rewrite Ho in Hr.
  clearbody r. clearbody st. subst r. rewrite Hs. simpl.
  rewrite lookup_insert_eq. simpl.
  split; [reflexivity|]. split; [reflexivity|]. split; [reflexivity|]. split.
  - eexists. split; [by left|]. split; [reflexivity|]. simpl. set_solver.
  - intros e (x & [<-|[<-|[]]] & Hev & _); discriminate Hev.
Qed.

(** ** Presence snapshots *)

Lemma map_set_keys_present {V} (k : SocketId) (v : V) (m : list (SocketId * V)) :
  In k (List.map fst m) → List.map fst (map_set k v m) = List.map fst m.
Proof.
  induction m as [|[k' v'] m IH]; simpl; [done|].
  destruct (decide (k' = k)) as [->|Hne]; simpl; [done|].
  intros [?|Hin]; [done|]. by rewrite IH.
Qed.

Lemma map_set_fresh {V} (k : SocketId) (v : V) (m : list (SocketId * V)) :
  ¬ In k (List.map fst m) → map_set k v m = m ++ [(k, v)].
Proof.
  induction m as [|[k' v'] m IH]; simpl; [done|]. intros Hn.
  destruct (decide (k' = k)) as [->|Hne]; [destruct Hn; by left|].
  rewrite IH; [done|]. intros Hin. apply Hn. by right.
Qed.

Lemma map_set_NoDup {V} (k : SocketId) (v : V) (m : list (SocketId * V)) :
  NoDup (List.map fst m) → NoDup (List.map fst (map_set k v m)).
Proof.
  intros Hnd. destruct (decide (k ∈ List.map fst m)) as [Hin|Hn].
  - rewrite map_set_keys_present; [done|]. by apply list_elem_of_In.
  - rewrite map_set_fresh by (by rewrite <- list_elem_of_In).
    rewrite map_app. simpl.
    apply NoDup_app. split; [done|]. split; [|apply NoDup_singleton].
    by intros x Hx ->%list_elem_of_singleton.
Qed.

Lemma map_set_In {V} (k : SocketId) (v : V) (m : list (SocketId * V)) k' v' :
  NoDup (List.map fst m) →
  In (k', v') (map_set k v m)
  ↔ (k' = k ∧ v' = v) ∨ (k' ≠ k ∧ In (k', v') m).
Proof.
  induction m as [|[k0 v0] m IH]; simpl; intros Hnd.
  - split; [intros [[= <- <-]|[]]; by left | intros [[-> ->]|[_ []]]; by left].
  - apply NoDup_cons in Hnd as [Hk0 Hnd]. rewrite list_elem_of_In in Hk0.
    specialize (IH Hnd).
    destruct (decide (k0 = k)) as [->|Hne]; simpl.
    + split.
      * intros [[= <- <-]|Hin]; [by left|]. right. split; [|by right].
        intros ->. apply Hk0. apply in_map_iff. by exists (k, v').
      * intros [[-> ->]|[Hk [[= <- <-]|Hin]]]; [by left|done|by right].
    + rewrite IH. split.
      * intros [[= <- <-]|[?|[? ?]]]; [right; split; [done|by left]|by left|].
        right. split; [done|by right].
      * intros [?|[Hk [[= <- <-]|Hin]]]; [right; by left|by left|].
        right. right. done.
Qed.

Lemma map_delete_keys {V} (k : SocketId) (m : list (SocketId * V)) :
  List.map fst (map_delete k m)
  = List.filter (λ k', negb (bool_decide (k' = k))) (List.map fst m).
Proof.
  induction m as [|[k' v'] m IH]; simpl; [done|].
  destruct (bool_decide (k' = k)); simpl; by rewrite IH.
Qed.

Lemma map_delete_In {V} (k : SocketId) (m : list (SocketId * V)) k' v' :
  In (k', v') (map_delete k m) ↔ k' ≠ k ∧ In (k', v') m.
Proof.
  unfold map_delete. rewrite filter_In. simpl.
  rewrite negb_true_iff, bool_decide_eq_false. tauto.
Qed.

Lemma filter_NoDup {A} (f : A → bool) (l : list A) :
  NoDup l → NoDup (List.filter f l).
Proof.
  induction 1 as [|x l Hx Hnd IH]; simpl; [constructor|].
  destruct (f x); [|done]. constructor; [|done].
  rewrite list_elem_of_In, filter_In. rewrite list_elem_of_In in Hx. tauto.
Qed.

(** Every outcome of the second half of a suspended [authenticate]: either
    only the list of suspended handlers changes and no snapshot is
    broadcast, or the entry is written and the snapshot broadcast. *)
Lemma handle_authenticate_resume_cases st sid env t :
  let r := handle st sid env (AuthenticateResume t) in
  rooms r.1 = rooms st ∧ db r.1 = db st
  ∧ ((sockets r.1 = sockets st ∧ onlineUsers r.1 = onlineUsers st
      ∧ ∀ e l, In e r.2 → event e ≠ users_online l)
     ∨ ∃ user,
         onlineUsers r.1
         = map_set sid
             (mkOnline (user_id user) (user_name user) (user_phone user) sid
                (js_now env))
             (onlineUsers st)
         ∧ sockets r.1
           = match sockets st !! sid with
             | Some _ =>
                 <[sid := mkSocket (Some (user_id user)) (Some (user_name user))
                            (Some (user_phone user))]> (sockets st)
             | None => sockets st
             end
         ∧ r.2 = socket_emit_if_connected st sid (auth_success user)
                 ++ [io_emit r.1 (users_online (map_values (onlineUsers r.1)))]).
Proof.
  assert (Hquiet : ∀ x e l,
            In e (socket_emit_if_connected st sid (auth_error x)) →
            event e ≠ users_online l).
  { intros x e l. unfold socket_emit_if_connected.
    destruct (sockets st !! sid); [|by intros []]. by intros [<-|[]]. }
  unfold handle, on_authenticate_resume.
  destruct (take_handler sid t (authenticating st)) as [suspended|]; simpl.
  2:{ split; [done|]. split; [done|]. left. split; [done|]. split; [done|].
      by intros e l []. }
  destruct (verifyToken t) as [i|]; simpl.
  2:{ split; [done|]. split; [done|]. left. split; [done|]. split; [done|].
      apply Hquiet. }
  destruct (negb (db_ok env)); simpl.
  { split; [done|]. split; [done|]. left. split; [done|]. split; [done|].
    apply Hquiet. }
  destruct (findUserById (db st) i) as [user|]; simpl.
  2:{ split; [done|]. split; [done|]. left. split; [done|]. split; [done|].
      apply Hquiet. }
  split; [done|]. split; [done|]. right. by exists user.
Qed.

Lemma presence_inv_ext (st st' : Server) :
  onlineUsers st' = onlineUsers st → sockets st' = sockets st →
  presence_inv st → presence_inv st'.
Proof. unfold presence_inv. by intros -> ->. Qed.

(** Writing the entry of a socket keeps the invariant, whether the socket
    is bound to the same user at once or is not connected. *)
Lemma presence_inv_set (st st' : Server) sid user now :
  onlineUsers st'
  = map_set sid
      (mkOnline (user_id user) (user_name user) (user_phone user) sid now)
      (onlineUsers st) →
  sockets st'
  = <[sid := mkSocket (Some (user_id user)) (Some (user_name user))
               (Some (user_phone user))]> (sockets st)
  ∨ (sockets st !! sid = None ∧ sockets st' = sockets st) →
  presence_inv st → presence_inv st'.
Proof.
  intros Ho Hs (Hnd & Hkey & Hbound). unfold presence_inv. rewrite Ho.
  split; [by apply map_set_NoDup|]. split.
  - intros k v Hin. apply map_set_In in Hin; [|done].
    destruct Hin as [[-> ->]|[_ Hin]]; [done|]. by apply Hkey.
  - intros k sock u Hk Hu. destruct (decide (sid = k)) as [<-|Hne].
    + destruct Hs as [Hs|[Hnone Hs]]; rewrite Hs in Hk.
      * rewrite lookup_insert_eq in Hk. injection Hk as <-.
        injection Hu as <-.
        eexists. split; [apply map_set_In; [done|]; by left | reflexivity].
      * congruence.
    + assert (Hk' : sockets st !! k = Some sock).
      { destruct Hs as [Hs|[_ Hs]]; rewrite Hs in Hk; [|done].
        by rewrite lookup_insert_ne in Hk. }
      destruct (Hbound k sock u Hk' Hu) as (v & Hin & Hv).
      exists v. split; [|done]. apply map_set_In; [done|]. right. by split.
Qed.

(** Every step keeps the invariant of the presence map. *)
Lemma handle_presence_inv st sid env ev :
  presence_inv st → presence_inv (handle st sid env ev).1.
Proof.
  intros Hinv. destruct ev as [tok|token|u f|s r c|r t| |t|t|name].
  - unfold handle, on_connection. destruct (sockets st !! sid) eqn:Hs; [done|].
    destruct Hinv as (Hnd & Hkey & Hbound). split; [done|]. split; [done|].
    simpl. intros k sock u. destruct (decide (sid = k)) as [->|Hne].
    + rewrite lookup_insert_eq. by intros [= <-].
    + rewrite lookup_insert_ne by done. apply Hbound.
  - unfold handle. destruct (sockets st !! sid) as [socket|] eqn:Hs; [|done].
    destruct (resolve_user (db st) env token) as [user|] eqn:Hr.
    + pose proof (handle_authenticate_success _ _ _ _ _ _ Hs Hr) as He.
      unfold handle in He. rewrite Hs in He. rewrite He. simpl.
      eapply presence_inv_set; [reflexivity| |exact Hinv]. by left.
    + destruct (handle_authenticate_failure _ _ _ _ _ Hs Hr) as [e He].
      unfold handle in He. rewrite Hs in He. by rewrite He.
  - unfold handle. destruct (sockets st !! sid) as [socket|] eqn:Hs; [|done].
    unfold on_join_conversation.
    destruct (falsy_num _); [done|]. by destruct (db_all_history _ _ _ _).
  - unfold handle. destruct (sockets st !! sid) as [socket|] eqn:Hs; [|done].
    unfold on_send_message.
    destruct (falsy_num _); [done|]. destruct (_ || _); [done|].
    destruct (negb _); [done|]. unfold db_run_insert_message.
    by destruct (db_ok env).
  - unfold handle. destruct (sockets st !! sid) as [socket|] eqn:Hs; [|done].
    unfold on_typing. destruct (sock_userId socket) as [u|]; [|done].
    by destruct (u =? 0).
  - unfold handle. destruct (sockets st !! sid) as [socket|] eqn:Hs; [|done].
    destruct Hinv as (Hnd & Hkey & Hbound). unfold presence_inv. simpl.
    split; [|split].
    + rewrite map_delete_keys. by apply filter_NoDup.
    + intros k v [Hk Hin]%map_delete_In. by apply Hkey.
    + intros k sock u Hk Hu. destruct (decide (sid = k)) as [->|Hne].
      { by rewrite lookup_delete_eq in Hk. }
      rewrite lookup_delete_ne in Hk by done.
      destruct (Hbound k sock u Hk Hu) as (v & Hin & Hv).
      exists v. split; [|done]. apply map_delete_In. split; [congruence|done].
  - unfold handle. by destruct (sockets st !! sid).
  - destruct (handle_authenticate_resume_cases st sid env t)
      as (_ & _ & [(Hs & Ho & _)|(user & Ho & Hs & _)]).
    + by eapply presence_inv_ext.
    + eapply presence_inv_set; [exact Ho| |exact Hinv].
      destruct (sockets st !! sid) eqn:Hsid; [by left|by right].
  - unfold handle. destruct (sockets st !! sid) as [socket|] eqn:Hs; [|done].
    unfold on_no_payload. destruct name; try done.
    by destruct (falsy_num _).
Qed.

Lemma run_presence_inv st tr : presence_inv st → presence_inv (run st tr).1.
Proof.
  revert st. induction tr as [|[[sid env] ev] tr IH]; intros st Hinv; [done|].
  simpl. apply IH. by apply handle_presence_inv.
Qed.

Lemma state_after_presence_inv d tr : presence_inv (state_after d tr).
Proof.
  apply run_presence_inv. split; [constructor|]. split; [intros ? ? []|].
  intros k sock u Hk. simpl in Hk. by rewrite lookup_empty in Hk.
Qed.

(** The values of a map whose entries carry their key list the keys. *)
Lemma values_socketIds (m : list (SocketId * OnlineEntry)) :
  (∀ k v, In (k, v) m → ou_socketId v = k) →
  List.map ou_socketId (map_values m) = List.map fst m.
Proof.
  induction m as [|[k v] m IH]; simpl; intros H; [done|].
  rewrite (H k v) by (by left). f_equal. apply IH.
  intros k' v' Hin. apply H. by right.
Qed.

Lemma values_delete (sid : SocketId) (m : list (SocketId * OnlineEntry)) :
  (∀ k v, In (k, v) m → ou_socketId v = k) →
  map_values (map_delete sid m)
  = List.filter (λ x, negb (bool_decide (ou_socketId x = sid))) (map_values m).
Proof.
  induction m as [|[k v] m IH]; simpl; intros H; [done|].
  rewrite (H k v) by (by left).
  destruct (bool_decide (k = sid)); simpl; rewrite IH; try done;
    intros k' v' Hin; apply H; by right.
Qed.

(** Where a [users_online] emission comes from: the broadcast that ends an
    [authenticate] that goes through, or the one of [disconnect]. *)
Lemma users_online_origin st sid env ev e l :
  In e (handle st sid env ev).2 →
  event e = users_online l →
  e = io_emit (handle st sid env ev).1
        (users_online (map_values (onlineUsers (handle st sid env ev).1)))
  ∧ ((completes_authenticate ev = true
      ∧ ∃ user,
          onlineUsers (handle st sid env ev).1
          = map_set sid
              (mkOnline (user_id user) (user_name user) (user_phone user) sid
                 (js_now env))
              (onlineUsers st))
     ∨ (ev = Disconnect
        ∧ onlineUsers (handle st sid env ev).1
          = map_delete sid (onlineUsers st))).
Proof.
  destruct ev as [tok|token|u f|s r c|r t| |t|t|name].
  - unfold handle, on_connection. destruct (sockets st !! sid); [by intros []|].
    destruct tok; simpl; [|by intros []]. by intros [<-|[]].
  - unfold handle. destruct (sockets st !! sid) as [socket|] eqn:Hs; [|by intros []].
    destruct (resolve_user (db st) env token) as [user|] eqn:Hr.
    + pose proof (handle_authenticate_success _ _ _ _ _ _ Hs Hr) as He.
      unfold handle in He. rewrite Hs in He. rewrite He. simpl.
      intros [<-|[<-|[]]]; [done|]. intros _. split; [done|]. left. eauto.
    + destruct (handle_authenticate_failure _ _ _ _ _ Hs Hr) as [x He].
      unfold handle in He. rewrite Hs in He. rewrite He. simpl.
      by intros [<-|[]].
  - unfold handle. destruct (sockets st !! sid) as [socket|] eqn:Hs; [|by intros []].
    unfold on_join_conversation. destruct (falsy_num _); simpl.
    { by intros [<-|[]]. }
    destruct (db_all_history _ _ _ _); simpl; [by intros [<-|[]] | by intros []].
  - unfold handle. destruct (sockets st !! sid) as [socket|] eqn:Hs; [|by intros []].
    unfold on_send_message. destruct (falsy_num _); simpl.
    { by intros [<-|[]]. }
    destruct (_ || _); simpl; [by intros [<-|[]]|].
    destruct (negb _); simpl; [by intros [<-|[]]|].
    unfold db_run_insert_message. destruct (db_ok env); simpl; by intros [<-|[]].
  - unfold handle. destruct (sockets st !! sid) as [socket|] eqn:Hs; [|by intros []].
    unfold on_typing. destruct (sock_userId socket) as [u|]; [|by intros []].
    destruct (u =? 0); simpl; [by intros [] | by intros [<-|[]]].
  - unfold handle. destruct (sockets st !! sid) as [socket|] eqn:Hs; [|by intros []].
    simpl. intros [<-|[]] _. split; [done|]. by right.
  - unfold handle. destruct (sockets st !! sid); by intros [].
  - destruct (handle_authenticate_resume_cases st sid env t)
      as (_ & _ & [(_ & _ & Hq)|(user & Ho & _ & Hr)]).
    + intros Hin Hev. by destruct (Hq e l Hin).
    + rewrite Hr. intros Hin Hev. apply in_app_or in Hin as [Hin|[<-|[]]].
      * unfold socket_emit_if_connected in Hin.
        destruct (sockets st !! sid); [|done].
        destruct Hin as [<-|[]]. discriminate Hev.
      * split; [done|]. left. split; [done|]. by exists user.
  - unfold handle. destruct (sockets st !! sid) as [socket|] eqn:Hs; [|by intros []].
    unfold on_no_payload. destruct name; simpl; try (by intros [<-|[]]).
    destruct (falsy_num _); by intros [<-|[]].
Qed.

(** C4, as the code has it: a [users_online] snapshot goes to every
    connected socket and lists the values of the presence map in the map's
    order.  The map is keyed by socket, not by user: its entries have
    distinct socket ids, and every connected socket that is bound to a user
    has its entry, carrying its id and that user, so a user bound on several
    sockets appears once per socket (and the converse fails: an entry can be
    that of a socket that is gone, see [users_online_lists_departed_socket]).
    A snapshot follows an [authenticate] that goes through or a
    [disconnect]: a socket whose entry is written for the first time is
    appended last, one that has an entry keeps its place, and [disconnect]
    takes the socket's entry out. *)
Theorem users_online_per_connection d tr sid env ev e l :
  let st := state_after d tr in
  let r := handle st sid env ev in
  In e r.2 →
  event e = users_online l →
  targets e = dom (sockets r.1)
  ∧ l = map_values (onlineUsers r.1)
  ∧ NoDup (List.map ou_socketId l)
  ∧ (∀ c sock u, sockets r.1 !! c = Some sock → sock_userId sock = Some u →
       ∃ x, In x l ∧ ou_socketId x = c ∧ ou_userId x = u)
  ∧ (completes_authenticate ev = true ∨ ev = Disconnect)
  ∧ (completes_authenticate ev = true →
       (In sid (List.map fst (onlineUsers st)) →
        List.map ou_socketId l
        = List.map ou_socketId (map_values (onlineUsers st)))
       ∧ (¬ In sid (List.map fst (onlineUsers st)) →
          ∃ x, ou_socketId x = sid ∧ l = map_values (onlineUsers st) ++ [x]))
  ∧ (ev = Disconnect →
     l = List.filter (λ x, negb (bool_decide (ou_socketId x = sid)))
           (map_values (onlineUsers st))).
Proof.
  intros st r Hin Hev.
  pose proof (state_after_presence_inv d tr) as Hst. fold st in Hst.
  pose proof (handle_presence_inv st sid env ev Hst) as Hr. fold r in Hr.
  destruct (users_online_origin st sid env ev e l Hin Hev) as [He Horigin].
  fold r in He, Horigin. clearbody r. clearbody st.
  destruct Hst as (Hnd0 & Hkey0 & _). destruct Hr as (Hnd & Hkey & Hbound).
  assert (Hl : l = map_values (onlineUsers r.1)).
  { rewrite He in Hev. simpl in Hev. congruence. }
  assert (Hids : List.map ou_socketId l = List.map fst (onlineUsers r.1)).
  { rewrite Hl. by apply values_socketIds. }
  split; [by rewrite He|]. split; [done|]. split; [by rewrite Hids|].
  split; [|split; [|split]].
  - intros c sock u Hc Hu. destruct (Hbound c sock u Hc Hu) as (v & Hv & Huv).
    exists v. split; [|split; [by apply Hkey|done]].
    rewrite Hl. apply in_map_iff. by exists (c, v).
  - destruct Horigin as [[Hc _]|[Hd _]]; [by left|by right].
  - intros Hc.
    destruct Horigin as [(_ & user & Hm)|[-> _]]; [|discriminate Hc].
    rewrite (values_socketIds (onlineUsers st)) by done.
    split; intros Hsid.
    + by rewrite Hids, Hm, map_set_keys_present.
    + eexists. split.
      2:{ rewrite Hl, Hm, map_set_fresh by done. unfold map_values.
          rewrite map_app. reflexivity. }
      reflexivity.
  - intros ->. destruct Horigin as [([=] & _)|[_ Hm]].
    rewrite Hl, Hm. by apply values_delete.
Qed.

Lemma users_online_per_connection_witness :
  let st := state_after Scenario.db0 Scenario.bob_then_alice_twice in
  let r := handle st "c2" Scenario.env0 (Authenticate (Some (Signed 1))) in
  let l := [mkOnline 2 "Bob" "0900000002" "c3" 0;
            mkOnline 1 "Alice" "0900000001" "c1" 0;
            mkOnline 1 "Alice" "0900000001" "c2" 0] in
  targets (mkEmit {["c1"; "c2"; "c3"]} (users_online l)) = dom (sockets r.1)
  ∧ l = map_values (onlineUsers r.1)
  ∧ NoDup (List.map ou_socketId l)
  ∧ ∃ x, ou_socketId x = "c2" ∧ l = map_values (onlineUsers st) ++ [x].
Proof.
  intros st r l.
  destruct (users_online_per_connection
              Scenario.db0 Scenario.bob_then_alice_twice "c2" Scenario.env0
              (Authenticate (Some (Signed 1)))
              (mkEmit {["c1"; "c2"; "c3"]} (users_online l)) l)
    as (H1 & H2 & H3 & _ & _ & H4 & _).
  - vm_compute. right. left. reflexivity.
  - reflexivity.
  - destruct (H4 eq_refl) as [_ H5].
    repeat split; try assumption. apply H5.
    vm_compute. intros [H|[H|[]]]; discriminate H.
Defined.

(** C4 as stated fails: Bob authenticates, then Alice on two sockets; the
    snapshot lists the users 2, 1, 1: Alice twice, and Bob before her. *)
Lemma users_online_not_deduplicated_nor_sorted :
  let st := state_after Scenario.db0 Scenario.bob_then_alice_twice in
  let r := handle st "c2" Scenario.env0 (Authenticate (Some (Signed 1))) in
  ∃ l, receives r.2 "c1" (users_online l)
       ∧ List.map ou_userId l = [2; 1; 1]
       ∧ ¬ NoDup (List.map ou_userId l)
       ∧ ¬ Sorted Z.le (List.map ou_userId l).
Proof.
  intros st r.
  exists [mkOnline 2 "Bob" "0900000002" "c3" 0;
          mkOnline 1 "Alice" "0900000001" "c1" 0;
          mkOnline 1 "Alice" "0900000001" "c2" 0].
  assert (Hr : r.2 = [socket_emit "c2" (auth_success Scenario.alice);
                      mkEmit {["c1"; "c2"; "c3"]}
                        (users_online
                           [mkOnline 2 "Bob" "0900000002" "c3" 0;
                            mkOnline 1 "Alice" "0900000001" "c1" 0;
                            mkOnline 1 "Alice" "0900000001" "c2" 0])])
    by (vm_compute; reflexivity).
  clearbody r. clearbody st. rewrite Hr. simpl.
  split; [|split; [reflexivity|split]].
  - eexists. split; [right; left; reflexivity|]. split; [reflexivity|].
    simpl. set_solver.
  - intros Hnd. apply NoDup_cons in Hnd as [_ Hnd].
    apply NoDup_cons in Hnd as [Hn _]. apply Hn. by left.
  - intros Hs. apply Sorted_inv in Hs as [_ Hs]. apply HdRel_inv in Hs. lia.
Qed.

(** An entry can outlive its socket: Alice's socket [c1] disconnects while
    its [authenticate] handler awaits; when the handler resumes it writes the
    entry of [c1] all the same, and the snapshot that Bob's socket is sent
    lists Alice, whom no connected socket is bound to.  No later step
    deletes that entry. *)
Lemma users_online_lists_departed_socket :
  let st := state_after Scenario.db0 Scenario.alice_leaves_early in
  let r := handle st "c1" Scenario.env0 (AuthenticateResume (Signed 1)) in
  sockets st !! "c1" = None
  ∧ dom (sockets r.1) = {["c3"]}
  ∧ r.2 = [mkEmit {["c3"]}
             (users_online [mkOnline 2 "Bob" "0900000002" "c3" 0;
                            mkOnline 1 "Alice" "0900000001" "c1" 0])]
  ∧ ∀ c sock, sockets r.1 !! c = Some sock → sock_userId sock ≠ Some 1.
Proof.
  intros st r.
  assert (H1 : sockets st !! "c1" = None) by (vm_compute; reflexivity).
  assert (H2 : sockets r.1
               = {["c3" := mkSocket (Some 2) (Some "Bob") (Some "0900000002")]})
    by (vm_compute; reflexivity).
  assert (H3 : r.2 = [mkEmit {["c3"]}
                        (users_online [mkOnline 2 "Bob" "0900000002" "c3" 0;
                                       mkOnline 1 "Alice" "0900000001" "c1" 0])])
    by (vm_compute; reflexivity).
  clearbody r. clearbody st. rewrite H2.
  split; [done|]. split; [by rewrite dom_singleton_L|]. split; [done|].
  intros c sock Hc. apply lookup_singleton_Some in Hc as [_ <-]. discriminate.
Qed.

(** The two ways of running [authenticate] agree: on a connected socket with
    no handler of the same token suspended, the two halves one after the
    other do what the single step does. *)
Lemma authenticate_suspend_resume st sid socket env t :
  sockets st !! sid = Some socket →
  take_handler sid t (authenticating st) = None →
  let st1 := (handle st sid env (AuthenticateSuspend t)).1 in
  handle st1 sid env (AuthenticateResume t)
  = handle st sid env (Authenticate (Some t)).
Proof.
  intros Hs Hnone. unfold handle. rewrite Hs. simpl.
  unfold on_authenticate_resume, on_authenticate, socket_emit_if_connected.
  simpl. rewrite Hs.
  assert (Htake : take_handler sid t (authenticating st ++ [(sid, t)])
                  = Some (authenticating st)).
  { clear Hs. induction (authenticating st) as [|h l IH]; simpl.
    - rewrite bool_decide_eq_true_2 by done.
      by destruct (Token_eq_dec t t).
    - simpl in Hnone. destruct (_ && _); [done|].
      destruct (take_handler sid t l); [done|]. by rewrite IH. }
  rewrite Htake.
  destruct (verifyToken t); [|by destruct st].
  destruct (negb (db_ok env)); [by destruct st|].
  destruct (findUserById (db st) z); [done|by destruct st].
Qed.

(** * Further properties of the session layer *)

(** ** Guards *)

Lemma receives_socket_emit sid ev c e :
  receives [socket_emit sid ev] c e ↔ c = sid ∧ e = ev.
Proof.
  rewrite receives_singleton. unfold socket_emit. simpl.
  rewrite elem_of_singleton. intuition congruence.
Qed.

(** X1: On a socket that is not authenticated, an event that reaches the
    guard of its listener changes nothing and is answered as the guard says:
    [join_conversation] and [send_message] get exactly one event, the error
    [NotAuthenticated] sent to the socket itself, and [typing] gets nothing
    at all.  (The events that reach the guard are [join_conversation] and
    [typing] with their payload, and [send_message] with or without one.) *)
Theorem unauthenticated_socket_is_inert st sid socket env ev :
  sockets st !! sid = Some socket →
  falsy_num (sock_userId socket) = true →
  guarded ev = true →
  handle st sid env ev = (st, guard_answer sid ev).
Proof.
  intros Hs Hf Hg. unfold handle. rewrite Hs.
  destruct ev as [tok|token|u f|s x y|x t| |t|t|name]; try discriminate Hg.
  - unfold on_join_conversation. by rewrite Hf.
  - unfold on_send_message. by rewrite Hf.
  - unfold on_typing. destruct (sock_userId socket) as [u|]; [|done].
    simpl in Hf. by rewrite Hf.
  - destruct name; try discriminate Hg. simpl. by rewrite Hf.
Qed.

Lemma unauthenticated_socket_is_inert_witness :
  let st := state_after Scenario.db0 Scenario.anonymous in
  handle st "c9" Scenario.env0 (JoinConversation 1 2)
  = (st, [socket_emit "c9" (error NotAuthenticated)])
  ∧ handle st "c9" Scenario.env0 (SendMessage 1 2 [104; 105]%N)
    = (st, [socket_emit "c9" (error NotAuthenticated)])
  ∧ handle st "c9" Scenario.env0 (Typing 2 true) = (st, []).
Proof.
  intros st.
  assert (Hs : sockets st !! "c9" = Some new_socket) by (vm_compute; reflexivity).
  split; [|split].
  - exact (unauthenticated_socket_is_inert st "c9" new_socket Scenario.env0
             (JoinConversation 1 2) Hs eq_refl eq_refl).
  - exact (unauthenticated_socket_is_inert st "c9" new_socket Scenario.env0
             (SendMessage 1 2 [104; 105]%N) Hs eq_refl eq_refl).
  - exact (unauthenticated_socket_is_inert st "c9" new_socket Scenario.env0
             (Typing 2 true) Hs eq_refl eq_refl).
Defined.

(** A [typing] or a [join_conversation] without payload never reaches the
    guard: from any connected socket, authenticated or not, it ends in
    [shutdown]. *)
Lemma no_payload_before_guard st sid socket env name :
  sockets st !! sid = Some socket →
  name = typing ∨ name = join_conversation →
  handle st sid env (NoPayload name) = (st, [shutdown]).
Proof.
  intros Hs [-> | ->]; unfold handle; by rewrite Hs.
Qed.

(** ** Joining *)

Lemma roomId_swap (a b : Z) : roomId a b = roomId b a.
Proof. rewrite !roomId_sorted. by rewrite Z.min_comm, Z.max_comm. Qed.

Lemma between_swap (u f : Z) (r : JoinedRow) : between u f r = between f u r.
Proof. unfold between. apply orb_comm. Qed.

Lemma pair_rows_swap (d : Db) (u f : Z) : pair_rows d u f = pair_rows d f u.
Proof.
  unfold pair_rows. apply filter_ext. intros r. apply between_swap.
Qed.

(** X2: Joining the conversation of [(u, f)] and joining that of [(f, u)] are
    the same thing: the same room, the same history. *)
Theorem join_conversation_symmetric st sid env u f :
  handle st sid env (JoinConversation u f)
  = handle st sid env (JoinConversation f u).
Proof.
  unfold handle. destruct (sockets st !! sid) as [socket|]; [|done].
  unfold on_join_conversation, db_all_history, history_query, pair_history.
  by rewrite (roomId_swap u f), (pair_rows_swap _ u f).
Qed.

Lemma socket_join_twice st sid room :
  socket_join (socket_join st sid room) sid room = socket_join st sid room.
Proof.
  unfold socket_join, room_members. simpl. f_equal.
  rewrite lookup_total_insert_eq, insert_insert_eq. f_equal. set_solver.
Qed.

(** X3: Joining a conversation a second time changes nothing more and gets the
    same reply. *)
Theorem join_conversation_idempotent st sid env u f :
  let r := handle st sid env (JoinConversation u f) in
  handle r.1 sid env (JoinConversation u f) = r.
Proof.
  intros r. unfold r, handle.
  destruct (sockets st !! sid) as [socket|] eqn:Hs; simpl; [|by rewrite Hs].
  unfold on_join_conversation.
  destruct (falsy_num (sock_userId socket)) eqn:Hf; simpl.
  { by rewrite Hs, Hf. }
  unfold db_all_history. destruct (db_ok env) eqn:Hdb; simpl;
    rewrite Hs, Hf, ?Hdb; by rewrite socket_join_twice.
Qed.

(** ** The store under the session layer *)

(** What [trimStart] drops is white space, and what it keeps is the rest. *)
Lemma trimStart_split (s : JsString) :
  ∃ p, s = p ++ trimStart s ∧ forallb isWhiteSpace p = true.
Proof.
  induction s as [|c s (p & Hp & Hw)]; simpl; [by exists []|].
  destruct (isWhiteSpace c) eqn:Hc.
  - exists (c :: p). simpl. rewrite Hc, Hw. split; [by f_equal|done].
  - by exists [].
Qed.

Lemma trimEnd_split (s : JsString) :
  ∃ q, s = trimEnd s ++ q ∧ forallb isWhiteSpace q = true.
Proof.
  destruct (trimStart_split (rev s)) as (p & Hp & Hw).
  exists (rev p). split; [|by rewrite forallb_rev].
  unfold trimEnd. rewrite <- rev_app_distr, <- Hp. by rewrite rev_involutive.
Qed.

Lemma trim_trimmed (s : JsString) : trim s ≠ [] → trimmed (trim s).
Proof.
  intros Hne. split; [done|]. split.
  - intros c t Hct. unfold trim in Hct.
    destruct (trimEnd_split (trimStart s)) as (q & Hq & _).
    rewrite Hct in Hq. simpl in Hq. by apply trimStart_head in Hq.
  - intros c t Hct. unfold trim, trimEnd in Hct.
    apply (f_equal (@rev N)) in Hct.
    rewrite rev_involutive, rev_app_distr in Hct. simpl in Hct.
    by apply trimStart_head in Hct.
Qed.

(** One step either leaves the store alone or appends one row, with the
    next id and a trimmed content. *)
Lemma handle_store_step st sid env ev :
  let d := db st in
  let d' := db (handle st sid env ev).1 in
  users d' = users d ∧ friends d' = friends d
  ∧ ((messages d' = messages d ∧ msg_seq d' = msg_seq d)
     ∨ ∃ row, messages d' = messages d ++ [row]
              ∧ msg_seq d' = msg_seq d + 1
              ∧ msg_id row = msg_seq d + 1
              ∧ trimmed (content row)).
Proof.
  destruct ev as [tok|token|u f|s r c|r t| |t|t|name];
    [|unfold handle; destruct (sockets st !! sid) as [socket|] eqn:Hs;
      [|by auto]..| |]; [simpl..| |simpl]; cbv zeta.
  - unfold handle, on_connection. destruct (sockets st !! sid); simpl; auto.
  - unfold on_authenticate. destruct token as [t|]; [|by auto].
    destruct (verifyToken t); [|by auto]. destruct (negb (db_ok env)); [by auto|].
    destruct (findUserById _ _); simpl; auto.
  - unfold on_join_conversation. destruct (falsy_num _); [by auto|].
    destruct (db_all_history _ _ _ _); simpl; auto.
  - unfold on_send_message. destruct (falsy_num _); [by auto|].
    destruct (_ || _) eqn:He; [by auto|]. destruct (negb _); [by auto|].
    unfold db_run_insert_message. destruct (db_ok env); simpl; [|by auto].
    split; [done|]. split; [done|]. right. eexists. split; [done|].
    split; [done|]. split; [done|]. simpl. apply trim_trimmed.
    intros Ht. apply empty_check_iff in Ht. congruence.
  - unfold on_typing. destruct (sock_userId socket) as [u|]; [|by auto].
    destruct (u =? 0); simpl; auto.
  - auto.
  - auto.
  - destruct (handle_authenticate_resume_cases st sid env t) as (_ & -> & _).
    auto.
  - unfold handle. destruct (sockets st !! sid) as [socket|]; [|by auto].
    unfold on_no_payload. destruct name; simpl; auto.
    destruct (falsy_num _); simpl; auto.
Qed.

Lemma run_store st tr :
  let d := db st in
  let d' := db (run st tr).1 in
  users d' = users d ∧ friends d' = friends d
  ∧ ∃ new, messages d' = messages d ++ new
           ∧ msg_seq d' = msg_seq d + Z.of_nat (length new)
           ∧ (∀ i row, new !! i = Some row →
                msg_id row = msg_seq d + 1 + Z.of_nat i)
           ∧ Forall (λ row, trimmed (content row)) new.
Proof.
  revert st. induction tr as [|[[sid env] ev] tr IH]; intros st; simpl.
  { split; [done|]. split; [done|]. exists []. rewrite app_nil_r.
    split; [done|]. split; [simpl; lia|]. split; [|constructor].
    intros i row H. by rewrite lookup_nil in H. }
  destruct (handle_store_step st sid env ev) as (Hu & Hf & Hm).
  destruct (IH (handle st sid env ev).1) as (Hu' & Hf' & new & Hn & Hs & Hi & Ht).
  split; [congruence|]. split; [congruence|].
  destruct Hm as [[Hm Hq]|(row & Hm & Hq & Hid & Hrow)].
  - exists new. rewrite Hn, Hm, Hs, Hq. split; [done|]. split; [done|].
    split; [|done]. intros i r Hr. rewrite (Hi i r Hr), Hq. done.
  - exists (row :: new). rewrite Hn, Hm, Hs, Hq, <- app_assoc. simpl length.
    split; [done|]. split; [lia|]. split; [|by constructor].
    intros [|i] r Hr; simpl in Hr.
    + injection Hr as <-. lia.
    + rewrite (Hi i r Hr), Hq. lia.
Qed.

(** X4: The session layer only ever appends to [messages]: over any run the
    [users] and [friends] tables are untouched, the rows that were there
    stay as they are, and the rows added carry the ids that follow the
    table's sequence, one after the other. *)
Theorem run_store_append_only st tr :
  let d := db st in
  let d' := db (run st tr).1 in
  users d' = users d ∧ friends d' = friends d
  ∧ ∃ new, messages d' = messages d ++ new
           ∧ msg_seq d' = msg_seq d + Z.of_nat (length new)
           ∧ (∀ i row, new !! i = Some row →
                msg_id row = msg_seq d + 1 + Z.of_nat i).
Proof.
  intros d d'. destruct (run_store st tr) as (Hu & Hf & new & Hn & Hs & Hi & _).
  eauto 10.
Qed.

(** X5: Every row the session layer stores has a content that is not empty and
    has no white space at either end. *)
Theorem stored_content_trimmed st tr :
  ∃ new, messages (db (run st tr).1) = messages (db st) ++ new
         ∧ Forall (λ row, trimmed (content row)) new.
Proof.
  destruct (run_store st tr) as (_ & _ & new & Hn & _ & _ & Ht). eauto.
Qed.

(** ** Sending, then joining *)

Lemma filter_none {A} (f : A → bool) (l : list A) :
  (∀ y, In y l → f y = false) → List.filter f l = [].
Proof.
  induction l as [|x l IH]; simpl; intros H; [done|].
  rewrite (H x) by (by left). apply IH. intros y Hy. apply H. by right.
Qed.

Lemma filter_by_id_unique (us : list User) (w : Z) (u : User) :
  NoDup (List.map user_id us) →
  List.find (λ x, user_id x =? w) us = Some u →
  List.filter (λ x, w =? user_id x) us = [u].
Proof.
  induction us as [|x us IH]; simpl; [done|].
  intros [Hx Hnd]%NoDup_cons Hfind. rewrite (Z.eqb_sym w).
  destruct (Z.eqb_spec (user_id x) w) as [Hw|Hw].
  - injection Hfind as <-. f_equal.
    apply filter_none. intros y Hy. apply Z.eqb_neq. intros Heq.
    apply Hx. rewrite list_elem_of_In, in_map_iff. exists y. split; [lia|done].
  - by apply IH.
Qed.

(** The joined rows of a pair after one more message between them. *)
Lemma pair_rows_after_insert (d : Db) (row : MessageRow) (seq' : Z) (u : User) :
  NoDup (List.map user_id (users d)) →
  findUserById d (sender_id row) = Some u →
  pair_rows (mkDb (users d) (friends d) (messages d ++ [row]) seq')
    (sender_id row) (receiver_id row)
  = pair_rows d (sender_id row) (receiver_id row) ++ [(row, user_name u)].
Proof.
  intros Hnd Hu. unfold pair_rows, join_users. simpl.
  rewrite flat_map_app, List.filter_app. f_equal. simpl. rewrite app_nil_r.
  rewrite (filter_by_id_unique _ _ _ Hnd Hu). simpl.
  unfold between. simpl. by rewrite !Z.eqb_refl.
Qed.

Lemma toWellFormed_id (s : JsString) :
  isWellFormed s = true → toWellFormed s = s.
Proof.
  assert (H : ∀ n s, (length s ≤ n)%nat → isWellFormed s = true →
                     toWellFormed s = s).
  { clear s. induction n as [|n IH]; intros [|c s] Hlen Hw; simpl in *;
      try done; try lia.
    destruct (is_high_surrogate c).
    - destruct s as [|c' s]; [done|]. apply andb_prop in Hw as [Hl Hw].
      rewrite Hl. do 2 f_equal. apply IH; [simpl in *; lia|done].
    - apply andb_prop in Hw as [Hl Hw]. apply negb_true_iff in Hl.
      rewrite Hl. f_equal. apply IH; [lia|done]. }
  by apply (H (length s)).
Qed.

(** X6: A message of well-formed text that goes through is in the history a
    later join replies with, as long as the pair has fewer than 50 messages
    before it: sent and stored content, sender and receiver come back, under
    the id the store gave and with the sender's registered name.  (Text is
    well-formed when it has no surrogate without its pair; the store would
    give such a one back as U+FFFD.) *)
Theorem sent_message_in_history
  st sid socket env w receiverId content sender :
  sockets st !! sid = Some socket →
  sock_userId socket = Some w →
  w ≠ 0 →
  trim content ≠ [] →
  isWellFormed (trim content) = true →
  db_ok env = true →
  NoDup (List.map user_id (users (db st))) →
  findUserById (db st) w = Some sender →
  (length (pair_rows (db st) w receiverId) < 50)%nat →
  let st' := (handle st sid env (SendMessage w receiverId content)).1 in
  In (mkMessage (msg_seq (db st) + 1) w receiverId (trim content) (db_now env)
        (Some (user_name sender)))
     (List.map format_message (history_query (db st') w receiverId)).
Proof.
  intros Hs Hw Hw0 Ht Hwf Hdb Hnd Hu Hlen st'. unfold st'.
  assert (Hf : falsy_num (sock_userId socket) = false)
    by (rewrite Hw; simpl; lia).
  rewrite (handle_send_stored _ _ _ _ w receiverId content Hs Hf Ht)
    by (rewrite ?Hw; done).
  simpl. unfold history_query, pair_history.
  pose proof (pair_rows_after_insert (db st)
                (mkRow (msg_seq (db st) + 1) w receiverId (trim content)
                   (db_now env))
                (msg_seq (db st) + 1) sender Hnd Hu) as Hrows.
  simpl in Hrows. rewrite Hrows.
  rewrite firstn_all2.
  - apply in_map_iff. eexists. split; [|
      apply (Permutation_in _ (Permutation_sym (order_by_timestamp_perm _)));
      apply in_or_app; right; by left].
    unfold format_message. simpl. by rewrite (toWellFormed_id _ Hwf).
  - rewrite order_by_timestamp_length, length_app. simpl. lia.
Qed.

Lemma sent_message_in_history_witness :
  let st := state_after Scenario.db0 Scenario.alice_online in
  let st' := (handle st "c1" Scenario.env0 (SendMessage 1 2 [32; 104; 105]%N)).1 in
  In (mkMessage (msg_seq (db st) + 1) 1 2 (trim [32; 104; 105]%N)
        (db_now Scenario.env0) (Some (user_name Scenario.alice)))
     (List.map format_message (history_query (db st') 1 2)).
Proof.
  apply (sent_message_in_history
           (state_after Scenario.db0 Scenario.alice_online) "c1"
           (mkSocket (Some 1) (Some "Alice") (Some "0900000001"))
           Scenario.env0 1 2 [32; 104; 105]%N Scenario.alice).
  - vm_compute. reflexivity.
  - reflexivity.
  - lia.
  - vm_compute. discriminate.
  - vm_compute. reflexivity.
  - reflexivity.
  - vm_compute. repeat constructor; rewrite ?list_elem_of_In; simpl; intuition lia.
  - vm_compute. reflexivity.
  - vm_compute. lia.
Defined.

(** A surrogate without its pair does not come back as it was sent: the
    message goes out to the room as it was typed, and the history gives it
    back as U+FFFD. *)
Lemma lone_surrogate_read_back :
  let st := state_after Scenario.db0 Scenario.alice_online in
  let r := handle st "c1" Scenario.env0 (SendMessage 1 2 [55357]%N) in
  List.map event r.2
  = [new_message (mkMessage 1 1 2 [55357]%N 0 (Some "Alice"))]
  ∧ List.map m_content
      (List.map format_message (history_query (db r.1) 1 2))
    = [[65533]%N].
Proof. intros st r. split; vm_compute; reflexivity. Qed.

Lemma insert_by_timestamp_last (r x : JoinedRow) (l : list JoinedRow) :
  timestamp r.1 < timestamp x.1 →
  insert_by_timestamp r (l ++ [x]) = insert_by_timestamp r l ++ [x].
Proof.
  intros Hlt. induction l as [|y l IH]; simpl.
  - by destruct (Z.leb_spec (timestamp r.1) (timestamp x.1)); [|lia].
  - destruct (timestamp r.1 <=? timestamp y.1); [done|]. by rewrite IH.
Qed.

Lemma order_by_timestamp_last (l : list JoinedRow) (x : JoinedRow) :
  (∀ r, In r l → timestamp r.1 < timestamp x.1) →
  order_by_timestamp (l ++ [x]) = order_by_timestamp l ++ [x].
Proof.
  induction l as [|y l IH]; simpl; intros H; [done|].
  rewrite IH by (intros r Hr; apply H; by right).
  apply insert_by_timestamp_last. apply H. by left.
Qed.

(** X7: Once a pair has 50 messages, a message sent later than all of them is
    stored but never shows in the history a join replies with: the reply is
    what it was before the message. *)
Theorem sent_message_beyond_50_not_in_history
  st sid socket env w receiverId content sender :
  sockets st !! sid = Some socket →
  sock_userId socket = Some w →
  w ≠ 0 →
  trim content ≠ [] →
  db_ok env = true →
  NoDup (List.map user_id (users (db st))) →
  findUserById (db st) w = Some sender →
  (50 ≤ length (pair_rows (db st) w receiverId))%nat →
  (∀ r, In r (pair_rows (db st) w receiverId) → timestamp r.1 < db_now env) →
  let st' := (handle st sid env (SendMessage w receiverId content)).1 in
  messages (db st')
  = messages (db st)
    ++ [mkRow (msg_seq (db st) + 1) w receiverId (trim content) (db_now env)]
  ∧ history_query (db st') w receiverId = history_query (db st) w receiverId.
Proof.
  intros Hs Hw Hw0 Ht Hdb Hnd Hu Hlen Hold st'. unfold st'.
  assert (Hf : falsy_num (sock_userId socket) = false)
    by (rewrite Hw; simpl; lia).
  rewrite (handle_send_stored _ _ _ _ w receiverId content Hs Hf Ht)
    by (rewrite ?Hw; done).
  simpl. split; [done|]. unfold history_query, pair_history.
  pose proof (pair_rows_after_insert (db st)
                (mkRow (msg_seq (db st) + 1) w receiverId (trim content)
                   (db_now env))
                (msg_seq (db st) + 1) sender Hnd Hu) as Hrows.
  simpl in Hrows. rewrite Hrows.
  rewrite order_by_timestamp_last by exact Hold.
  apply take_app_le. rewrite order_by_timestamp_length. exact Hlen.
Qed.

Lemma sent_message_beyond_50_not_in_history_witness :
  let st := state_after Scenario.db51 Scenario.alice_online in
  let st' := (handle st "c1" env_later (SendMessage 1 2 [104; 105]%N)).1 in
  messages (db st')
  = messages (db st)
    ++ [mkRow (msg_seq (db st) + 1) 1 2 (trim [104; 105]%N) (db_now env_later)]
  ∧ history_query (db st') 1 2 = history_query (db st) 1 2.
Proof.
  apply (sent_message_beyond_50_not_in_history
           (state_after Scenario.db51 Scenario.alice_online) "c1"
           (mkSocket (Some 1) (Some "Alice") (Some "0900000001"))
           env_later 1 2 [104; 105]%N Scenario.alice).
  - vm_compute. reflexivity.
  - reflexivity.
  - lia.
  - vm_compute. discriminate.
  - reflexivity.
  - vm_compute. repeat constructor; rewrite ?list_elem_of_In; simpl; intuition lia.
  - vm_compute. reflexivity.
  - vm_compute. lia.
  - intros r Hr. apply Z.ltb_lt. revert r Hr. apply forallb_forall.
    vm_compute. reflexivity.
Defined.

(** ** Rooms and connected sockets *)

Lemma room_members_fmap_difference (m : gmap string (gset SocketId)) sid room :
  ((λ members : gset SocketId, members ∖ {[sid]}) <$> m) !!! room
  = (m !!! room) ∖ {[sid]}.
Proof.
  rewrite !lookup_total_alt, lookup_fmap.
  destruct (m !! room); simpl; [done|]. set_solver.
Qed.

Lemma room_members_join st sid room room' :
  room_members (socket_join st sid room) room'
  = if decide (room = room') then {[sid]} ∪ room_members st room'
    else room_members st room'.
Proof.
  unfold room_members, socket_join. simpl.
  destruct (decide (room = room')) as [->|Hne].
  - by rewrite lookup_total_insert_eq.
  - by rewrite lookup_total_insert_ne.
Qed.

(** How one step changes the connected sockets and the members of a room. *)
Lemma handle_rooms_step st sid env ev room :
  let st' := (handle st sid env ev).1 in
  match ev with
  | Disconnect =>
      (dom (sockets st') = dom (sockets st) ∖ {[sid]}
       ∧ room_members st' room = room_members st room ∖ {[sid]})
      ∨ (sockets st !! sid = None ∧ st' = st)
  | _ =>
      dom (sockets st) ⊆ dom (sockets st')
      ∧ room_members st room ⊆ room_members st' room
  end.
Proof.
  assert (Hrefl : dom (sockets st) ⊆ dom (sockets st)
                  ∧ room_members st room ⊆ room_members st room) by done.
  destruct ev as [tok|token|u f|s r c|r t| |t|t|name]; unfold handle.
  - unfold on_connection. destruct (sockets st !! sid); simpl; [done|].
    rewrite dom_insert_L. split; [set_solver|done].
  - destruct (sockets st !! sid) as [socket|] eqn:Hs; [|done].
    unfold on_authenticate. destruct token as [t|]; [|done].
    destruct (verifyToken t); [|done].
    destruct (negb (db_ok env)); [done|].
    destruct (findUserById _ _); simpl; [|done].
    rewrite dom_insert_L. split; [set_solver|done].
  - destruct (sockets st !! sid) as [socket|] eqn:Hs; [|done].
    unfold on_join_conversation. destruct (falsy_num _); [done|].
    assert (Hj : (if db_all_history (db (socket_join st sid (roomId u f))) env u f
                  is Some rows
                  then (socket_join st sid (roomId u f),
                        [socket_emit sid
                           (message_history (List.map format_message rows))])
                  else (socket_join st sid (roomId u f), [])).1
                 = socket_join st sid (roomId u f))
      by (by destruct (db_all_history _ _ _ _)).
    rewrite Hj, room_members_join. simpl.
    split; [done|]. destruct (decide (roomId u f = room)); set_solver.
  - destruct (sockets st !! sid) as [socket|] eqn:Hs; [|done].
    unfold on_send_message. destruct (falsy_num _); [done|].
    destruct (_ || _); [done|]. destruct (negb _); [done|].
    unfold db_run_insert_message. by destruct (db_ok env).
  - destruct (sockets st !! sid) as [socket|] eqn:Hs; [|done].
    unfold on_typing. destruct (sock_userId socket) as [x|]; [|done].
    by destruct (x =? 0).
  - destruct (sockets st !! sid) as [socket|] eqn:Hs; [|by right].
    left. simpl. rewrite dom_delete_L. split; [done|].
    unfold room_members. simpl. apply room_members_fmap_difference.
  - by destruct (sockets st !! sid).
  - destruct (handle_authenticate_resume_cases st sid env t)
      as (Hrooms & _ & [(Hs & _)|(user & _ & Hs & _)]);
      unfold handle in Hrooms, Hs; unfold room_members; rewrite Hrooms, Hs.
    + done.
    + split; [|done]. destruct (sockets st !! sid); [|done].
      rewrite dom_insert_L. set_solver.
  - destruct (sockets st !! sid) as [socket|] eqn:Hs; [|done].
    unfold on_no_payload. destruct name; try done. by destruct (falsy_num _).
Qed.

(** X9: No handler but [disconnect] takes a socket out of a room or out of the
    namespace: whatever else happens on whatever socket (authenticating
    again as another user included), the members of every room stay. *)
Theorem rooms_shrink_only_on_disconnect st sid env ev room :
  ev ≠ Disconnect →
  room_members st room ⊆ room_members (handle st sid env ev).1 room
  ∧ dom (sockets st) ⊆ dom (sockets (handle st sid env ev).1).
Proof.
  intros Hev. pose proof (handle_rooms_step st sid env ev room) as Hstep.
  simpl in Hstep. destruct ev; try done; by destruct Hstep as (? & ?).
Qed.

Lemma rooms_shrink_only_on_disconnect_witness :
  let st := state_after Scenario.db0 Scenario.two_sessions in
  let ev := Authenticate (Some (Signed 2)) in
  room_members st (roomId 1 2)
  ⊆ room_members (handle st "c1" Scenario.env0 ev).1 (roomId 1 2)
  ∧ dom (sockets st) ⊆ dom (sockets (handle st "c1" Scenario.env0 ev).1).
Proof.
  intros st ev.
  apply (rooms_shrink_only_on_disconnect st "c1" Scenario.env0 ev (roomId 1 2)).
  discriminate.
Defined.

(** ** Presence after a disconnect *)

(** X10: When a connected socket disconnects, the snapshot that is broadcast
    no longer has the entry of that socket and still has the entry of every
    other connected socket that is bound to a user: a user who has another
    connection open stays on the list. *)
Theorem disconnect_keeps_other_sessions d tr sid env socket :
  let st := state_after d tr in
  sockets st !! sid = Some socket →
  let r := handle st sid env Disconnect in
  ∃ l, r.2 = [io_emit r.1 (users_online l)]
       ∧ (∀ x, In x l → ou_socketId x ≠ sid)
       ∧ (∀ c sock u, c ≠ sid → sockets st !! c = Some sock →
            sock_userId sock = Some u →
            ∃ x, In x l ∧ ou_socketId x = c ∧ ou_userId x = u).
Proof.
  intros st Hs r.
  pose proof (state_after_presence_inv d tr) as (Hnd & Hkey & Hbound).
  fold st in Hnd, Hkey, Hbound. clearbody st.
  unfold r, handle. rewrite Hs. simpl.
  eexists. split; [reflexivity|]. unfold map_values. split.
  - intros x Hx. apply in_map_iff in Hx as ([k v] & <- & Hkv).
    apply map_delete_In in Hkv as [Hk Hkv]. simpl.
    by rewrite (Hkey k v Hkv).
  - intros c sock u Hc Hsock Hb.
    destruct (Hbound c sock u Hsock Hb) as (v & Hv & Hu).
    exists v. split; [|split; [by apply Hkey|done]].
    apply in_map_iff. exists (c, v). split; [done|]. by apply map_delete_In.
Qed.

Lemma disconnect_keeps_other_sessions_witness :
  let st := state_after Scenario.db0 Scenario.two_sessions in
  let r := handle st "c1" Scenario.env0 Disconnect in
  ∃ l, r.2 = [io_emit r.1 (users_online l)]
       ∧ (∀ x, In x l → ou_socketId x ≠ "c1")
       ∧ ∃ x, In x l ∧ ou_socketId x = "c2" ∧ ou_userId x = 1.
Proof.
  intros st r.
  destruct (disconnect_keeps_other_sessions Scenario.db0 Scenario.two_sessions
              "c1" Scenario.env0
              (mkSocket (Some 1) (Some "Alice") (Some "0900000001")))
    as (l & H1 & H2 & H3).
  - vm_compute. reflexivity.
  - exists l. split; [exact H1|]. split; [exact H2|].
    apply (H3 "c2" (mkSocket (Some 1) (Some "Alice") (Some "0900000001")) 1).
    + discriminate.
    + vm_compute. reflexivity.
    + reflexivity.
Defined.

(** * Properties of the HTTP routes *)

(** ** Strings *)

Lemma of_code_units_code_units (s : string) : of_code_units (code_units s) = s.
Proof.
  unfold of_code_units, code_units. rewrite List.map_map.
  rewrite (map_ext _ (λ c, c)) by apply ascii_N_embedding.
  by rewrite List.map_id, string_of_list_ascii_of_string.
Qed.

Lemma is_digit_value (c : ascii) :
  is_digit c = true →
  digit_value 10 c = Some (Z.of_N (N_of_ascii c) - 48)
  ∧ isWhiteSpace (N_of_ascii c) = false
  ∧ c ≠ "-"%char ∧ c ≠ "+"%char ∧ c ≠ "x"%char ∧ c ≠ "X"%char.
Proof.
  destruct c as [[|] [|] [|] [|] [|] [|] [|] [|]]; simpl; intros H;
    try discriminate H; repeat split; done.
Qed.

Lemma digit_value_of_digit (c : ascii) :
  is_digit c = false → digit_value 10 c = None.
Proof.
  destruct c as [[|] [|] [|] [|] [|] [|] [|] [|]]; simpl; intros H;
    try discriminate H; reflexivity.
Qed.

(** Reading back the digits of a positive number, whatever follows them as
    long as it is not a digit. *)
Lemma parse_digits_acc (d : Decimal.uint) (acc : positive) (rest : string) :
  starts_with_digit 10 rest = false →
  parse_digits 10 (Z.pos acc) (NilEmpty.string_of_uint d +:+ rest)
  = Z.pos (Pos.of_uint_acc d acc).
Proof.
  intros Hrest. revert acc. induction d; intros acc; simpl;
    try (rewrite <- IHd; f_equal; lia).
  destruct rest as [|c rest]; simpl in *; [done|].
  by destruct (digit_value 10 c).
Qed.

Lemma parse_digits_uint (d : Decimal.uint) (rest : string) :
  starts_with_digit 10 rest = false →
  parse_digits 10 0 (NilEmpty.string_of_uint d +:+ rest)
  = Z.of_N (Pos.of_uint d).
Proof.
  intros Hrest. induction d; simpl;
    try (exact IHd); try (by apply (parse_digits_acc d 1 rest)).
  - destruct rest as [|c rest]; simpl in *; [done|].
    by destruct (digit_value 10 c).
  - by apply (parse_digits_acc d 2 rest).
  - by apply (parse_digits_acc d 3 rest).
  - by apply (parse_digits_acc d 4 rest).
  - by apply (parse_digits_acc d 5 rest).
  - by apply (parse_digits_acc d 6 rest).
  - by apply (parse_digits_acc d 7 rest).
  - by apply (parse_digits_acc d 8 rest).
  - by apply (parse_digits_acc d 9 rest).
Qed.

Lemma abs_digits_value (n : Z) (rest : string) :
  starts_with_digit 10 rest = false →
  parse_digits 10 0 (abs_digits n +:+ rest) = Z.abs n.
Proof.
  intros Hrest. destruct n as [|p|p].
  - simpl. destruct rest as [|c rest]; simpl in *; [done|].
    by destruct (digit_value 10 c).
  - change (abs_digits (Z.pos p)) with (NilEmpty.string_of_uint (Pos.to_uint p)).
    rewrite parse_digits_uint by done. by rewrite Unsigned.of_to.
  - change (abs_digits (Z.neg p)) with (NilEmpty.string_of_uint (Pos.to_uint p)).
    rewrite parse_digits_uint by done. by rewrite Unsigned.of_to.
Qed.

(** The text after the number: empty, or starting with a character that is
    neither a digit nor the [x] of a radix prefix. *)
Lemma parseInt_digits (s rest : string) :
  all_digits s = true → s ≠ EmptyString →
  starts_with_digit 10 rest = false →
  (∀ r, rest ≠ String "x" r) → (∀ r, rest ≠ String "X" r) →
  ∀ sign,
    parse_unsigned sign (s +:+ rest)
    = Some (sign * parse_digits 10 0 (s +:+ rest)).
Proof.
  intros Hs Hne Hrest Hx HX sign.
  destruct s as [|c s]; [done|]. simpl in Hs.
  apply andb_prop in Hs as [Hc Hs].
  destruct (is_digit_value c Hc) as (Hv & _).
  assert (Hstart : starts_with_digit 10 (String c s +:+ rest) = true)
    by (simpl; by rewrite Hv).
  assert (Hplain :
    match String c s +:+ rest with
    | String "0" (String "x" r) => (16, r)
    | String "0" (String "X" r) => (16, r)
    | _ => (10, String c s +:+ rest)
    end%char = (10, String c s +:+ rest)).
  { simpl. destruct s as [|c' s]; simpl.
    - destruct rest as [|x rest]; [by destruct c as [[|] [|] [|] [|] [|] [|] [|] [|]]|].
      destruct (Ascii.eqb_spec x "x") as [->|Hnx]; [by destruct (Hx rest)|].
      destruct (Ascii.eqb_spec x "X") as [->|HnX]; [by destruct (HX rest)|].
      destruct c as [[|] [|] [|] [|] [|] [|] [|] [|]]; try done;
        destruct x as [[|] [|] [|] [|] [|] [|] [|] [|]]; done.
    - simpl in Hs. apply andb_prop in Hs as [Hc' _].
      destruct (is_digit_value c' Hc') as (_ & _ & _ & _ & Hnx & HnX).
      destruct c as [[|] [|] [|] [|] [|] [|] [|] [|]]; try done;
        destruct c' as [[|] [|] [|] [|] [|] [|] [|] [|]]; done. }
  unfold parse_unsigned. rewrite Hplain. by rewrite Hstart.
Qed.

Lemma trimStart_not_white (c : ascii) (s : string) :
  isWhiteSpace (N_of_ascii c) = false →
  of_code_units (trimStart (code_units (String c s))) = String c s.
Proof.
  intros Hc. unfold code_units. simpl. rewrite Hc.
  apply (of_code_units_code_units (String c s)).
Qed.

Lemma sign_of_digit (c : ascii) (s : string) :
  is_digit c = true →
  match String c s with
  | String "-" r => parse_unsigned (-1) r
  | String "+" r => parse_unsigned 1 r
  | s1 => parse_unsigned 1 s1
  end%char = parse_unsigned 1 (String c s).
Proof.
  destruct c as [[|] [|] [|] [|] [|] [|] [|] [|]]; simpl; intros H;
    try discriminate H; reflexivity.
Qed.

Lemma parseInt_toString_rest (n : Z) (rest : string) :
  starts_with_digit 10 rest = false →
  (∀ r, rest ≠ String "x" r) →
  (∀ r, rest ≠ String "X" r) →
  parseInt (toString n +:+ rest) = Some n.
Proof.
  intros Hrest Hx HX.
  destruct (toString_shape n) as (Hd & Hne & Hs). rewrite Hs.
  unfold parseInt. destruct (Z.ltb_spec n 0) as [Hneg|Hpos].
  - change (String "-" (abs_digits n) +:+ rest)
      with (String "-" (abs_digits n +:+ rest)).
    rewrite trimStart_not_white by reflexivity.
    rewrite (parseInt_digits _ _ Hd Hne Hrest Hx HX (-1)).
    rewrite abs_digits_value by done. f_equal. lia.
  - destruct (abs_digits n) as [|c s] eqn:Habs; [done|].
    pose proof Hd as Hd'. simpl in Hd'. apply andb_prop in Hd' as [Hc _].
    destruct (is_digit_value c Hc) as (_ & Hw & _).
    change (String c s +:+ rest) with (String c (s +:+ rest)).
    rewrite trimStart_not_white by done.
    rewrite (sign_of_digit c (s +:+ rest) Hc).
    change (String c (s +:+ rest)) with (String c s +:+ rest).
    rewrite (parseInt_digits _ _ Hd Hne Hrest Hx HX 1).
    rewrite <- Habs, abs_digits_value by done. f_equal. lia.
Qed.

(** ** The middleware *)

Lemma split_on_nonempty (sep : ascii) (s : string) : split_on sep s ≠ [].
Proof.
  induction s as [|c s IH]; simpl; [done|].
  destruct (split_on sep s); [done|]. by destruct (Ascii.eqb c sep).
Qed.

Lemma split_on_free (sep : ascii) (s : string) :
  free_of sep s = true → split_on sep s = [s].
Proof.
  induction s as [|c s IH]; simpl; [done|].
  intros [Hc Hs]%andb_prop. rewrite (IH Hs).
  apply negb_true_iff in Hc. by rewrite Hc.
Qed.

Lemma split_on_app (sep : ascii) (a b : string) :
  free_of sep a = true →
  split_on sep (a +:+ String sep b) = a :: split_on sep b.
Proof.
  induction a as [|c a IH]; simpl.
  - intros _. rewrite Ascii.eqb_refl.
    pose proof (split_on_nonempty sep b). by destruct (split_on sep b).
  - intros [Hc Ha]%andb_prop. rewrite (IH Ha).
    apply negb_true_iff in Hc. by rewrite Hc.
Qed.

(** X12: The middleware takes the second word of the [Authorization] header as
    the token, whatever the first word is: the scheme is not looked at.  The
    request goes through exactly when that word verifies and names a user of
    the store. *)
Theorem authenticateToken_reads_second_word libs d env scheme token :
  free_of " " scheme = true →
  free_of " " token = true →
  token ≠ EmptyString →
  authenticateToken libs d env (Some (scheme +:+ String " " token))
  = match verifyToken (jwt_read libs token) with
    | Some id =>
        if store_ok env 0 then
          match findUserById d id with
          | Some user => inr user
          | None => inl (mkResponse 404 (Fail USER_NOT_FOUND))
          end
        else inl (mkResponse 403 (Fail INVALID_TOKEN))
    | None => inl (mkResponse 403 (Fail INVALID_TOKEN))
    end.
Proof.
  intros Hscheme Htoken Hne. unfold authenticateToken, header_token.
  assert (Hh : empty_string (scheme +:+ String " " token) = false)
    by (by destruct scheme).
  rewrite Hh, split_on_app, split_on_free by done. simpl.
  destruct token; [done|]. simpl.
  destruct (verifyToken _); [|done]. by destruct (store_ok env 0).
Qed.

Lemma authenticateToken_reads_second_word_witness :
  let libs := mkLibs (λ s, if String.eqb s "t1" then Signed 1 else Forged)
                (λ _, "t1") (λ _ pw, pw) String.eqb in
  authenticateToken libs Scenario.db0 (mkHttpEnv (λ _, true) "")
    (Some ("Basic" +:+ String " " "t1"))
  = inr Scenario.alice.
Proof.
  intros libs.
  apply (authenticateToken_reads_second_word libs Scenario.db0
           (mkHttpEnv (λ _, true) "") "Basic" "t1"); [reflexivity..|discriminate].
Defined.

(** X13: Without a header, or with a header of one word, the middleware answers
    401 [NO_TOKEN]; so it does when two spaces follow the scheme. *)
Theorem authenticateToken_no_token libs d env authorization :
  match authorization with
  | None => True
  | Some h =>
      free_of " " h = true
      ∨ ∃ scheme rest, free_of " " scheme = true
                       ∧ h = scheme +:+ String " " (String " " rest)
  end →
  authenticateToken libs d env authorization
  = inl (mkResponse 401 (Fail NO_TOKEN)).
Proof.
  unfold authenticateToken, header_token.
  destruct authorization as [h|]; [|done].
  intros [Hfree|(scheme & rest & Hfree & ->)].
  - destruct (empty_string h); [done|]. by rewrite split_on_free.
  - destruct (empty_string _); [done|].
    rewrite split_on_app by done. simpl.
    pose proof (split_on_nonempty " " rest). by destruct (split_on " " rest).
Qed.

Lemma authenticateToken_no_token_witness :
  let libs := mkLibs (λ _, Signed 1) (λ _, "t1") (λ _ pw, pw) String.eqb in
  authenticateToken libs Scenario.db0 (mkHttpEnv (λ _, true) "")
    (Some ("Bearer" +:+ String " " (String " " "t1")))
  = inl (mkResponse 401 (Fail NO_TOKEN)).
Proof.
  intros libs.
  apply (authenticateToken_no_token libs Scenario.db0
           (mkHttpEnv (λ _, true) "")
           (Some ("Bearer" +:+ String " " (String " " "t1")))).
  right. exists "Bearer", "t1". split; reflexivity.
Defined.

(** ** The history route *)

(** X14: [GET /api/messages/:friendId] reads the id leniently and replies with
    at most 100 messages, of which the first 50 are the history that
    [join_conversation] sends for the same pair. *)
Theorem get_messages_extends_socket_history d env me f rest :
  f ≠ 0 →
  store_ok env 1 = true →
  starts_with_digit 10 rest = false →
  (∀ r, rest ≠ String "x" r) →
  (∀ r, rest ≠ String "X" r) →
  ∃ l, get_messages d env me (toString f +:+ rest)
       = mkResponse 200 (MessagesOk l)
       ∧ (length l ≤ 100)%nat
       ∧ firstn 50 l
         = List.map format_message (history_query d (user_id me) f).
Proof.
  intros Hf Hok Hrest Hx HX. unfold get_messages.
  rewrite parseInt_toString_rest by done. simpl.
  destruct (Z.eqb_spec f 0) as [|_]; [done|]. rewrite Hok. simpl.
  eexists. split; [reflexivity|]. split.
  - rewrite length_map. apply firstn_le_length.
  - unfold history_query. by rewrite firstn_map, firstn_firstn.
Qed.

Lemma get_messages_extends_socket_history_witness :
  ∃ l, get_messages Scenario.db51 (mkHttpEnv (λ _, true) "") Scenario.bob
         (toString 1 +:+ "abc")
       = mkResponse 200 (MessagesOk l)
       ∧ (length l ≤ 100)%nat
       ∧ firstn 50 l
         = List.map format_message
             (history_query Scenario.db51 (user_id Scenario.bob) 1).
Proof.
  apply (get_messages_extends_socket_history Scenario.db51
           (mkHttpEnv (λ _, true) "") Scenario.bob 1 "abc");
    [lia | reflexivity | reflexivity | discriminate | discriminate].
Defined.

(** ** Friends *)

Lemma findUserByPhone_Some d p u :
  findUserByPhone d p = Some u → In u (users d) ∧ user_phone u = p.
Proof.
  intros H. apply find_some in H as [Hin Heq]. by apply String.eqb_eq in Heq.
Qed.

Lemma findUserById_Some d i u :
  findUserById d i = Some u → In u (users d) ∧ user_id u = i.
Proof.
  intros H. apply find_some in H as [Hin Heq]. by apply Z.eqb_eq in Heq.
Qed.

Lemma NoDup_map_inj {A B} (f : A → B) (l : list A) (a b : A) :
  NoDup (List.map f l) → In a l → In b l → f a = f b → a = b.
Proof.
  induction l as [|x l IH]; simpl; [done|].
  intros [Hx Hnd]%NoDup_cons [->|Ha] [->|Hb] Heq; try done.
  - destruct Hx. rewrite list_elem_of_In, in_map_iff. by exists b.
  - destruct Hx. rewrite list_elem_of_In, in_map_iff. by exists a.
  - by apply IH.
Qed.

(** Every outcome of the route: a refusal that leaves the tables as they
    are, or the one new row. *)
Lemma post_friends_add_cases d env me phone :
  let r := post_friends_add d env me phone in
  (r.1 = d ∧ status r.2 ≠ 200)
  ∨ ∃ p friend,
      phone = Some p
      ∧ p ≠ user_phone me
      ∧ findUserByPhone d p = Some friend
      ∧ friendship_exists d (user_id me) (user_id friend) = false
      ∧ r = ({| users := users d;
                friends :=
                  friends d
                  ++ [mkFriend (Z.min (user_id me) (user_id friend))
                        (Z.max (user_id me) (user_id friend))];
                messages := messages d;
                msg_seq := msg_seq d |},
             mkResponse 200 (AddFriendOk friend)).
Proof.
  unfold post_friends_add. destruct phone as [p|]; [|by left].
  destruct (empty_string p); [by left|].
  destruct (negb (validatePhoneNumber p)); [by left|].
  destruct (String.eqb_spec p (user_phone me)) as [|Hne]; [by left|].
  destruct (negb (store_ok env 1)); [by left|].
  destruct (findUserByPhone d p) as [friend|] eqn:Hfind; [|by left].
  destruct (negb (store_ok env 2)); [by left|].
  destruct (friendship_exists _ _ _) eqn:Hex; [by left|].
  destruct (negb (store_ok env 3)); [by left|].
  right. by exists p, friend.
Qed.

(** X15: The route changes the tables exactly when it answers 200, and then by
    one row of [friends] that has the smaller id first; every refusal leaves
    them as they are. *)
Theorem post_friends_add_changes_iff_ok d env me phone :
  let r := post_friends_add d env me phone in
  (status r.2 ≠ 200 → r.1 = d)
  ∧ (status r.2 = 200 →
     ∃ friend,
       payload r.2 = AddFriendOk friend
       ∧ users r.1 = users d ∧ messages r.1 = messages d
       ∧ friends r.1
         = friends d
           ++ [mkFriend (Z.min (user_id me) (user_id friend))
                 (Z.max (user_id me) (user_id friend))]).
Proof.
  intros r.
  destruct (post_friends_add_cases d env me phone)
    as [[Hd Hs]|(p & friend & _ & _ & _ & _ & Hr)]; fold r in Hd, Hs || fold r in Hr.
  - split; [done|]. intros H. by destruct Hs.
  - rewrite Hr. simpl. split; [done|]. intros _. by exists friend.
Qed.

Lemma friendship_exists_app d me friend row seq' :
  friendship_exists
    (mkDb (users d) (friends d ++ [row]) (messages d) seq') me friend
  = friendship_exists d me friend
    || ((friend_user1 row =? me) && (friend_user2 row =? friend)
        || (friend_user1 row =? friend) && (friend_user2 row =? me)).
Proof.
  unfold friendship_exists. simpl. rewrite existsb_app. simpl.
  by rewrite orb_false_r.
Qed.

Lemma friendship_exists_false d me friend f :
  friendship_exists d me friend = false → In f (friends d) →
  ¬ (friend_user1 f = me ∧ friend_user2 f = friend)
  ∧ ¬ (friend_user1 f = friend ∧ friend_user2 f = me).
Proof.
  unfold friendship_exists. intros Hex Hin.
  assert (Hf : (friend_user1 f =? me) && (friend_user2 f =? friend)
               || (friend_user1 f =? friend) && (friend_user2 f =? me) = false).
  { destruct (_ || _) eqn:E; [|done].
    assert (existsb
              (λ f, (friend_user1 f =? me) && (friend_user2 f =? friend)
                    || (friend_user1 f =? friend) && (friend_user2 f =? me))
              (friends d) = true) by (apply existsb_exists; eauto).
    congruence. }
  apply orb_false_elim in Hf as [H1 H2].
  apply andb_false_iff in H1. apply andb_false_iff in H2.
  rewrite !Z.eqb_neq in H1, H2. tauto.
Qed.

(** X16: The route never stores a row of [friends] twice and never stores one
    with the larger id first, whichever of the two users asks: a table that
    has no duplicate row and no row with the larger id first stays so. *)
Theorem post_friends_add_keeps_friends_wf d env me phone :
  friends_wf d →
  friends_wf (post_friends_add d env me phone).1.
Proof.
  intros [Hle Hnd].
  destruct (post_friends_add_cases d env me phone)
    as [[Hd _]|(p & friend & _ & _ & _ & Hex & Hr)].
  { rewrite Hd. by split. }
  rewrite Hr. simpl. split; simpl.
  - intros f [Hf|[<-|[]]]%in_app_or; [by apply Hle|]. simpl. lia.
  - apply NoDup_app. split; [done|]. split; [|apply NoDup_singleton].
    intros f Hf ->%list_elem_of_singleton. apply list_elem_of_In in Hf.
    destruct (friendship_exists_false _ _ _ _ Hex Hf) as [H1 H2].
    simpl in H1, H2. lia.
Qed.

Lemma post_friends_add_keeps_friends_wf_witness :
  let d' := (post_friends_add Scenario.db0 (mkHttpEnv (λ _, true) "") Scenario.carol
               (Some "0900000001")).1 in
  friends d' = [mkFriend 1 2; mkFriend 1 3] ∧ friends_wf d'.
Proof.
  intros d'. split; [reflexivity|].
  apply (post_friends_add_keeps_friends_wf Scenario.db0
           (mkHttpEnv (λ _, true) "") Scenario.carol (Some "0900000001")).
  split.
  - intros f [<-|[]]. simpl. lia.
  - apply NoDup_singleton.
Defined.

Lemma canonical_row_links (a b : Z) :
  (Z.min a b =? a) && (Z.max a b =? b) || (Z.min a b =? b) && (Z.max a b =? a)
  = true.
Proof.
  destruct (Z.le_ge_cases a b).
  - rewrite Z.min_l, Z.max_r, !Z.eqb_refl by lia. done.
  - rewrite Z.min_r, Z.max_l, !Z.eqb_refl by lia. apply orb_true_r.
Qed.

(** X17: Once a friendship is made it cannot be made again, whichever of the two
    users asks: the route answers 409 [ALREADY_FRIENDS] and adds nothing. *)
Theorem friendship_cannot_be_added_twice d env env' me p friend :
  (post_friends_add d env me (Some p)).2 = mkResponse 200 (AddFriendOk friend) →
  validatePhoneNumber (user_phone me) = true →
  findUserByPhone d (user_phone me) = Some me →
  store_ok env' 1 = true →
  store_ok env' 2 = true →
  let d' := (post_friends_add d env me (Some p)).1 in
  post_friends_add d' env' me (Some p)
  = (d', mkResponse 409 (Fail ALREADY_FRIENDS))
  ∧ post_friends_add d' env' friend (Some (user_phone me))
    = (d', mkResponse 409 (Fail ALREADY_FRIENDS)).
Proof.
  intros Hok Hvalid Hself H1 H2 d'.
  destruct (post_friends_add_cases d env me (Some p))
    as [[_ Hs]|(p' & friend' & [= <-] & Hp & Hfind & Hex & Hr)].
  { rewrite Hok in Hs. by destruct Hs. }
  assert (friend' = friend) as -> by (rewrite Hr in Hok; simpl in Hok; congruence).
  unfold d'. rewrite Hr. simpl.
  pose proof Hfind as [_ Hphone]%findUserByPhone_Some.
  assert (Hnonempty : ∀ q, validatePhoneNumber q = true → empty_string q = false).
  { intros q Hq. unfold validatePhoneNumber in Hq. by destruct (empty_string q). }
  assert (Hvp : validatePhoneNumber p = true).
  { clear Hok. revert Hr. unfold post_friends_add.
    destruct (empty_string p); [by intros [=]|].
    destruct (validatePhoneNumber p); [done|by intros [=]]. }
  split.
  - unfold post_friends_add. rewrite (Hnonempty p Hvp), Hvp. simpl.
    destruct (String.eqb_spec p (user_phone me)) as [|_]; [done|].
    rewrite H1. simpl. unfold findUserByPhone in *. simpl. rewrite Hfind.
    rewrite H2. simpl. rewrite friendship_exists_app. simpl.
    by rewrite canonical_row_links, orb_true_r.
  - unfold post_friends_add. rewrite (Hnonempty _ Hvalid), Hvalid. simpl.
    destruct (String.eqb_spec (user_phone me) (user_phone friend)) as [Heq|_].
    { destruct Hp. by rewrite <- Hphone. }
    rewrite H1. simpl. unfold findUserByPhone in *. simpl. rewrite Hself.
    rewrite H2. simpl. rewrite friendship_exists_app. simpl.
    rewrite (orb_comm ((_ =? user_id friend) && _)).
    by rewrite canonical_row_links, orb_true_r.
Qed.

Lemma friendship_cannot_be_added_twice_witness :
  let env := mkHttpEnv (λ _, true) "" in
  let d' := (post_friends_add Scenario.db0 env Scenario.carol
               (Some "0900000001")).1 in
  post_friends_add d' env Scenario.carol (Some "0900000001")
  = (d', mkResponse 409 (Fail ALREADY_FRIENDS))
  ∧ post_friends_add d' env Scenario.alice (Some (user_phone Scenario.carol))
    = (d', mkResponse 409 (Fail ALREADY_FRIENDS)).
Proof.
  intros env.
  apply (friendship_cannot_be_added_twice Scenario.db0 env env Scenario.carol
           "0900000001" Scenario.alice); reflexivity.
Defined.

(** ** The list of friends *)

Lemma insert_by_name_In (u x : User) (l : list User) :
  In x (insert_by_name u l) ↔ x = u ∨ In x l.
Proof.
  induction l as [|y l IH]; simpl; [intuition|].
  destruct (String.leb _ _); simpl; rewrite ?IH; intuition.
Qed.

Lemma order_by_name_In (x : User) (l : list User) :
  In x (fold_right insert_by_name [] l) ↔ In x l.
Proof.
  induction l as [|y l IH]; simpl; [done|].
  rewrite insert_by_name_In, IH. intuition.
Qed.

(** Who is in the reply: the rows of [users] that a row of [friends] links
    to the asking user. *)
Lemma friends_query_In d me u :
  In u (friends_query d me)
  ↔ In u (users d) ∧ ∃ f, In f (friends d) ∧ friend_link me u f = true.
Proof.
  unfold friends_query, friends_join.
  rewrite order_by_name_In, nodup_In, in_flat_map. split.
  - intros (x & Hx & Hin). apply in_map_iff in Hin as (f & <- & Hf).
    apply filter_In in Hf. eauto.
  - intros (Hu & f & Hf & Hl). exists u. split; [done|].
    apply in_map_iff. exists f. split; [done|]. by apply filter_In.
Qed.

Lemma friend_link_swap (a b : User) (f : FriendRow) :
  friend_link (user_id a) b f = friend_link (user_id b) a f.
Proof.
  unfold friend_link.
  rewrite (andb_comm (friend_user1 f =? user_id a)).
  rewrite (andb_comm (friend_user2 f =? user_id a)).
  apply orb_comm.
Qed.

(** X18: Friendship is mutual: one registered user is on the list of another
    exactly when the other is on theirs. *)
Theorem friends_query_symmetric d a b :
  In a (users d) →
  In b (users d) →
  In b (friends_query d (user_id a)) ↔ In a (friends_query d (user_id b)).
Proof.
  intros Ha Hb. rewrite !friends_query_In.
  split; intros (_ & f & Hf & Hl); (split; [done|]); exists f;
    (split; [done|]); by rewrite friend_link_swap.
Qed.

Lemma friends_query_symmetric_witness :
  In Scenario.bob (friends_query Scenario.db0 (user_id Scenario.alice))
  ↔ In Scenario.alice (friends_query Scenario.db0 (user_id Scenario.bob)).
Proof.
  apply (friends_query_symmetric Scenario.db0 Scenario.alice Scenario.bob).
  - left. reflexivity.
  - right. left. reflexivity.
Defined.

(** X19: When the route answers 200, each of the two users is at once on the
    list of the other: there is no request to accept. *)
Theorem added_friend_is_listed_both_ways d env me phone friend :
  In me (users d) →
  (post_friends_add d env me phone).2 = mkResponse 200 (AddFriendOk friend) →
  let d' := (post_friends_add d env me phone).1 in
  In friend (friends_query d' (user_id me))
  ∧ In me (friends_query d' (user_id friend)).
Proof.
  intros Hme Hok d'.
  destruct (post_friends_add_cases d env me phone)
    as [[_ Hs]|(p & friend' & _ & _ & Hfind & _ & Hr)].
  { rewrite Hok in Hs. by destruct Hs. }
  assert (friend' = friend) as -> by (rewrite Hr in Hok; simpl in Hok; congruence).
  apply findUserByPhone_Some in Hfind as [Hfriend _].
  unfold d'. rewrite Hr. simpl. rewrite !friends_query_In. simpl.
  split; (split; [done|]); eexists; (split; [apply in_or_app; right; by left|]);
    unfold friend_link; simpl;
    destruct (Z.le_ge_cases (user_id me) (user_id friend));
    rewrite ?Z.min_l, ?Z.max_r, ?Z.min_r, ?Z.max_l, ?Z.eqb_refl by lia;
    simpl; rewrite ?orb_true_r; done.
Qed.

Lemma added_friend_is_listed_both_ways_witness :
  let env := mkHttpEnv (λ _, true) "" in
  let d' := (post_friends_add Scenario.db0 env Scenario.carol
               (Some "0900000001")).1 in
  In Scenario.alice (friends_query d' (user_id Scenario.carol))
  ∧ In Scenario.carol (friends_query d' (user_id Scenario.alice)).
Proof.
  intros env.
  apply (added_friend_is_listed_both_ways Scenario.db0 env Scenario.carol
           (Some "0900000001") Scenario.alice).
  - right. right. left. reflexivity.
  - reflexivity.
Defined.


(** ** Registration and login *)

Lemma max_id_bound (us : list User) (u : User) :
  In u us → user_id u ≤ fold_right Z.max 0 (List.map user_id us).
Proof.
  induction us as [|x us IH]; simpl; [done|].
  intros [->|Hin]; [lia|]. specialize (IH Hin). lia.
Qed.

Lemma findUserByPhone_None d p :
  findUserByPhone d p = None → ¬ In p (List.map user_phone (users d)).
Proof.
  intros Hnone Hin. apply in_map_iff in Hin as (u & <- & Hu).
  pose proof (find_none _ _ Hnone u Hu) as H. simpl in H.
  by rewrite String.eqb_refl in H.
Qed.

(** Every outcome of the registration: a refusal that leaves the store as
    it is, or the new row. *)
Lemma post_auth_register_cases libs s env name phone password :
  let r := post_auth_register libs s env name phone password in
  (r.1 = s ∧ status r.2 ≠ 201)
  ∨ ∃ n p pw,
      name = Some n ∧ phone = Some p ∧ password = Some pw
      ∧ validateName n = true
      ∧ validatePhoneNumber p = true
      ∧ validatePassword pw = true
      ∧ findUserByPhone (store_db s) p = None
      ∧ r = ((createUser s (trim_string n) p (bcrypt_hash libs (salt env) pw)).1,
             mkResponse 201
               (RegisterOk (mkUser (next_user_id (store_db s)) (trim_string n) p))).
Proof.
  unfold post_auth_register.
  destruct name as [n|]; [|by left]. destruct phone as [p|]; [|by left].
  destruct password as [pw|]; [|by left].
  destruct (_ || _); [by left|].
  destruct (validateName n) eqn:Hn; [|by left].
  destruct (validatePhoneNumber p) eqn:Hp; [|by left].
  destruct (validatePassword pw) eqn:Hpw; [|by left]. simpl.
  destruct (negb (store_ok env 0)); [by left|].
  destruct (findUserByPhone _ p) eqn:Hfind; [by left|].
  destruct (negb (store_ok env 1)); [by left|].
  right. by exists n, p, pw.
Qed.

(** X20: Registration keeps the [users] table sound: ids and phones stay
    distinct and every row has its password; a refusal changes nothing. *)
Theorem post_auth_register_keeps_users_wf libs s env name phone password :
  users_wf s →
  let r := post_auth_register libs s env name phone password in
  users_wf r.1 ∧ (status r.2 ≠ 201 → r.1 = s).
Proof.
  intros (Hids & Hphones & Hrows) r.
  destruct (post_auth_register_cases libs s env name phone password)
    as [[Hs Hst]|(n & p & pw & _ & _ & _ & _ & _ & _ & Hnone & Hr)];
    fold r in Hs, Hst || fold r in Hr.
  { rewrite Hs. by split. }
  rewrite Hr. simpl. split; [|done].
  assert (Hfresh : ∀ u, In u (users (store_db s)) →
                        user_id u < next_user_id (store_db s)).
  { intros u Hu. unfold next_user_id.
    pose proof (max_id_bound _ _ Hu). lia. }
  split; [|split]; simpl.
  - rewrite map_app. apply NoDup_app. split; [done|].
    split; [|apply NoDup_singleton].
    intros i Hi ->%list_elem_of_singleton.
    apply list_elem_of_In, in_map_iff in Hi as (u & Hu & Hin).
    specialize (Hfresh u Hin). simpl in Hu. lia.
  - rewrite map_app. apply NoDup_app. split; [done|].
    split; [|apply NoDup_singleton].
    intros q Hq ->%list_elem_of_singleton. apply list_elem_of_In in Hq.
    by apply findUserByPhone_None in Hnone.
  - intros u [Hu|[<-|[]]]%in_app_or.
    + destruct (Hrows u Hu) as (H0 & Hpw). split; [done|].
      rewrite lookup_insert_ne; [done|]. specialize (Hfresh u Hu). lia.
    + simpl. split; [|by rewrite lookup_insert_eq].
      unfold next_user_id.
      assert (0 ≤ fold_right Z.max 0 (List.map user_id (users (store_db s)))).
      { clear. induction (users (store_db s)); simpl; lia. }
      lia.
Qed.

Lemma post_auth_register_keeps_users_wf_witness :
  let r := post_auth_register plain_libs store0 http_env0
             (Some " Dan ") (Some "0900000004") (Some "dan-pw") in
  users_wf r.1 ∧ (status r.2 ≠ 201 → r.1 = store0).
Proof.
  apply (post_auth_register_keeps_users_wf plain_libs store0 http_env0
           (Some " Dan ") (Some "0900000004") (Some "dan-pw")).
  split; [|split].
  - apply NoDup_ListNoDup. repeat constructor; simpl; intuition lia.
  - apply NoDup_ListNoDup. repeat constructor; simpl; intuition discriminate.
  - intros u [<-|[<-|[<-|[]]]]; (split; [simpl; lia|]);
      eexists; vm_compute; reflexivity.
Defined.

Lemma find_app_None {A} (f : A → bool) (l : list A) (x : A) :
  List.find f l = None → f x = true → List.find f (l ++ [x]) = Some x.
Proof.
  induction l as [|y l IH]; simpl; intros Hnone Hx; [by rewrite Hx|].
  destruct (f y); [done|]. by apply IH.
Qed.

(** X21: A user who has just registered can log in with the same phone and
    password, and gets a token for the account that was created.  (The one
    thing asked of the password library: a password matches its own hash.) *)
Theorem register_then_login libs s env env' name phone password user :
  (∀ salt pw, bcrypt_compare libs pw (bcrypt_hash libs salt pw) = true) →
  (post_auth_register libs s env name phone password).2
  = mkResponse 201 (RegisterOk user) →
  store_ok env' 0 = true →
  let s' := (post_auth_register libs s env name phone password).1 in
  post_auth_login libs s' env' phone password
  = mkResponse 200 (LoginOk (generateToken libs user) user).
Proof.
  intros Hlaw Hok Hstore s'.
  destruct (post_auth_register_cases libs s env name phone password)
    as [[_ Hst]|(n & p & pw & -> & -> & -> & _ & Hp & Hpw & Hnone & Hr)].
  { rewrite Hok in Hst. by destruct Hst. }
  assert (Hu : user = mkUser (next_user_id (store_db s)) (trim_string n) p)
    by (rewrite Hr in Hok; simpl in Hok; congruence).
  unfold s'. rewrite Hr. simpl. unfold post_auth_login.
  assert (Hep : empty_string p = false).
  { unfold validatePhoneNumber in Hp. by destruct (empty_string p). }
  assert (Hepw : empty_string pw = false).
  { unfold validatePassword in Hpw. by destruct (empty_string pw). }
  rewrite Hep, Hepw, Hstore. simpl.
  unfold findUserByPhone in *. simpl.
  rewrite (find_app_None _ _ (mkUser (next_user_id (store_db s)) (trim_string n) p)
             Hnone) by (simpl; apply String.eqb_refl).
  simpl. rewrite lookup_insert_eq, Hlaw. by rewrite Hu.
Qed.

Lemma register_then_login_witness :
  let r := post_auth_register plain_libs store0 http_env0
             (Some " Dan ") (Some "0900000004") (Some "dan-pw") in
  post_auth_login plain_libs r.1 http_env0 (Some "0900000004") (Some "dan-pw")
  = mkResponse 200
      (LoginOk (generateToken plain_libs (mkUser 4 "Dan" "0900000004"))
         (mkUser 4 "Dan" "0900000004")).
Proof.
  apply (register_then_login plain_libs store0 http_env0 http_env0
           (Some " Dan ") (Some "0900000004") (Some "dan-pw")
           (mkUser 4 "Dan" "0900000004")).
  - intros salt pw. apply String.eqb_refl.
  - reflexivity.
  - reflexivity.
Defined.

Lemma findUserById_unique d u :
  NoDup (List.map user_id (users d)) → In u (users d) →
  findUserById d (user_id u) = Some u.
Proof.
  intros Hnd Hin. unfold findUserById.
  destruct (List.find _ _) as [v|] eqn:Hfind.
  - apply find_some in Hfind as [Hv Heq]. apply Z.eqb_eq in Heq.
    f_equal. by apply (NoDup_map_inj user_id (users d)).
  - pose proof (find_none _ _ Hfind u Hin) as H. simpl in H.
    by rewrite Z.eqb_refl in H.
Qed.

(** X22: The token a login returns binds a socket to the account that logged in:
    [authenticate] with it answers [auth_success] for that user and sets the
    socket's user.  (The one thing asked of the token library: a token reads
    back as signed for the user's id.) *)
Theorem login_token_authenticates_socket
  libs s env phone password token user st sid socket senv :
  jwt_read libs (jwt_sign libs user) = Signed (user_id user) →
  NoDup (List.map user_id (users (store_db s))) →
  post_auth_login libs s env phone password
  = mkResponse 200 (LoginOk token user) →
  db st = store_db s →
  sockets st !! sid = Some socket →
  db_ok senv = true →
  let r := handle st sid senv (Authenticate (Some (jwt_read libs token))) in
  sockets r.1 !! sid
  = Some (mkSocket (Some (user_id user)) (Some (user_name user))
            (Some (user_phone user)))
  ∧ receives r.2 sid (auth_success user).
Proof.
  intros Hjwt Hnd Hlogin Hdb Hs Hok r.
  assert (Hin : In user (users (store_db s)) ∧ token = jwt_sign libs user).
  { revert Hlogin. unfold post_auth_login.
    destruct phone as [p|]; [|by intros [=]].
    destruct password as [pw|]; [|by intros [=]].
    destruct (_ || _); [by intros [=]|].
    destruct (negb _); [by intros [=]|].
    destruct (findUserByPhone _ p) as [u|] eqn:Hfind; [|by intros [=]].
    destruct (user_password s !! user_id u); [|by intros [=]].
    destruct (bcrypt_compare _ _ _); [|by intros [=]].
    intros [= <- <-]. by apply findUserByPhone_Some in Hfind as [? _]. }
  destruct Hin as [Hin ->].
  assert (Hr : resolve_user (db st) senv (Some (jwt_read libs (jwt_sign libs user)))
               = Some user).
  { unfold resolve_user. rewrite Hjwt, Hok, Hdb. simpl.
    by apply findUserById_unique. }
  unfold r. rewrite (handle_authenticate_success _ _ _ _ _ _ Hs Hr). simpl.
  rewrite lookup_insert_eq. split; [done|].
  eexists. split; [by left|]. split; [done|]. simpl. set_solver.
Qed.

Lemma login_token_authenticates_socket_witness :
  let st := state_after Scenario.db0 Scenario.anonymous in
  let token := jwt_sign plain_libs Scenario.bob in
  let r := handle st "c9" Scenario.env0
             (Authenticate (Some (jwt_read plain_libs token))) in
  sockets r.1 !! "c9"
  = Some (mkSocket (Some 2) (Some "Bob") (Some "0900000002"))
  ∧ receives r.2 "c9" (auth_success Scenario.bob).
Proof.
  intros st token.
  apply (login_token_authenticates_socket plain_libs store0 http_env0
           (Some "0900000002") (Some "bob-pw") token Scenario.bob
           st "c9" new_socket Scenario.env0).
  - vm_compute. reflexivity.
  - apply NoDup_ListNoDup. repeat constructor; simpl; intuition lia.
  - vm_compute. reflexivity.
  - vm_compute. reflexivity.
  - vm_compute. reflexivity.
  - reflexivity.
Defined.
